(** * bing-translator: the language lister of [scripts/lang.py]

    A shallow embedding of [get_support_languages] and of the script's
    entry point, with the Python values they handle: decoded JSON, the
    insertion-ordered [dict], the exceptions raised by subscripting and
    attribute lookup, and the text produced by
    [json.dumps(_, indent=4, sort_keys=True)] and [print].  The text is
    checked against a reader of indented JSON that shares nothing with
    the encoder. *)

From Stdlib Require Import List String Ascii ZArith NArith Lia Bool.
From Stdlib Require Import Sorting.Permutation Sorting.Sorted.
From Stdlib Require Import Numbers.DecimalString Numbers.DecimalPos Numbers.DecimalZ.
From Stdlib Require Import Strings.Byte.
From Stdlib Require Import Floats.PrimFloat.
Import ListNotations.

Local Open Scope string_scope.
Local Open Scope list_scope.

(** ** Python values *)

(** A Python [str] is a sequence of Unicode code points. *)
Definition codepoint := N.
Definition pystr := list codepoint.

(** Source literals such as ['translation'] are plain ASCII. *)
Definition lit (s : string) : pystr :=
  List.map N_of_ascii (list_ascii_of_string s).

(** What [json] decodes a document to: [None], [bool], [int], [float],
    [str], [list] and [dict].  A [dict] keeps its entries in insertion
    order, so it is an association list. *)
#[warnings="-register-all"]
Inductive json : Type :=
| JNull
| JBool (b : bool)
| JInt (n : Z)
| JFloat (f : float)
| JStr (s : pystr)
| JList (l : list json)
| JDict (d : list (pystr * json)).

Definition dict := list (pystr * json).

(** The exceptions the script can meet. *)
Inductive exn : Type :=
| KeyError (key : pystr)
| TypeError
| AttributeError
| JSONDecodeError
| ValueError
| RecursionError
| RequestException.

(** A computation either returns or raises. *)
Inductive result (A : Type) : Type :=
| Ok (a : A)
| Raise (e : exn).
Arguments Ok {A} a.
Arguments Raise {A} e.

Definition bind {A B : Type} (m : result A) (k : A -> result B) : result B :=
  match m with
  | Ok a => k a
  | Raise e => Raise e
  end.

Notation "x <- m ;; k" := (bind m (fun x => k))
  (at level 61, m at next level, right associativity).

(** ** Strings: equality and order *)

Fixpoint str_eqb (s t : pystr) : bool :=
  match s, t with
  | [], [] => true
  | a :: s', b :: t' => N.eqb a b && str_eqb s' t'
  | _, _ => false
  end.

(** [s < t] on [str]: code point by code point, a proper prefix first. *)
Fixpoint str_ltb (s t : pystr) : bool :=
  match s, t with
  | [], [] => false
  | [], _ :: _ => true
  | _ :: _, [] => false
  | a :: s', b :: t' =>
      if N.ltb a b then true
      else if N.eqb a b then str_ltb s' t'
      else false
  end.

Definition str_lt (s t : pystr) : Prop := str_ltb s t = true.

(** ** The [dict] operations the script uses *)

Module Dict.

Fixpoint get {A : Type} (d : list (pystr * A)) (k : pystr) : option A :=
  match d with
  | [] => None
  | (k', v) :: d' => if str_eqb k' k then Some v else get d' k
  end.

(** [d[k] = v]: an existing key keeps its place, a new one goes last. *)
Fixpoint set {A : Type} (d : list (pystr * A)) (k : pystr) (v : A)
  : list (pystr * A) :=
  match d with
  | [] => [(k, v)]
  | (k', v') :: d' =>
      if str_eqb k' k then (k', v) :: d' else (k', v') :: set d' k v
  end.

Definition keys {A : Type} (d : list (pystr * A)) : list pystr :=
  List.map fst d.

End Dict.

(** [o[k]] with a [str] subscript. *)
Definition getitem (o : json) (k : pystr) : result json :=
  match o with
  | JDict d =>
      match Dict.get d k with
      | Some v => Ok v
      | None => Raise (KeyError k)
      end
  | _ => Raise TypeError
  end.

(** [o.items()]: only a [dict] has the attribute. *)
Definition items (o : json) : result (list (pystr * json)) :=
  match o with
  | JDict d => Ok d
  | _ => Raise AttributeError
  end.

(** ** The HTTP response

    Of a response the script uses the body only, through
    [Response.json()].  [content] is that body as the client reads it:
    the bytes received, in the charset the response declares for them. *)

Record Response : Type := mkResponse {
  status_code : Z;
  content : list byte
}.

Definition url : string :=
  "https://api.cognitive.microsofttranslator.com/languages?api-version=3.0".

(** ** [json.dumps(_, indent=4, sort_keys=True)]

    The encoder of the [json] module with the script's arguments: ASCII
    output, [', '] replaced by [','] between items since an indent is
    given, [': '] after a key, one level of indentation per nesting. *)

Definition nl : string := String "010"%char EmptyString.
Definition dquote : string := String "034"%char EmptyString.

Definition hex_digit (n : N) : ascii :=
  if N.ltb n 10 then ascii_of_N (48 + n)%N else ascii_of_N (87 + n)%N.

(** ['{0:04x}'.format(n)] for [n < 0x10000]. *)
Definition hex4 (n : N) : string :=
  String (hex_digit (N.modulo (N.shiftr n 12) 16))
  (String (hex_digit (N.modulo (N.shiftr n 8) 16))
  (String (hex_digit (N.modulo (N.shiftr n 4) 16))
  (String (hex_digit (N.modulo n 16)) EmptyString))).

Definition uescape (n : N) : string := "\u" ++ hex4 n.

(** The replacement of one code point in [encode_basestring_ascii]. *)
Definition escape_char (c : codepoint) : string :=
  if N.eqb c 92 then "\\"
  else if N.eqb c 34 then "\" ++ dquote
  else if N.leb 32 c && N.leb c 126 then String (ascii_of_N c) EmptyString
  else if N.eqb c 8 then "\b"
  else if N.eqb c 12 then "\f"
  else if N.eqb c 10 then "\n"
  else if N.eqb c 13 then "\r"
  else if N.eqb c 9 then "\t"
  else if N.ltb c 65536 then uescape c
  else
    let n := (c - 65536)%N in
    uescape (N.lor 55296 (N.land (N.shiftr n 10) 1023))
    ++ uescape (N.lor 56320 (N.land n 1023)).

Definition encode_basestring_ascii (s : pystr) : string :=
  dquote ++ String.concat "" (List.map escape_char s) ++ dquote.

(** [int.__repr__]. *)
Definition intstr (n : Z) : string := NilZero.string_of_int (Z.to_int n).

(** [sorted(dct.items())]: the keys of a [dict] are distinct, so the
    order of the pairs is the order of their keys. *)
Fixpoint insert_item {A : Type} (x : pystr * A) (l : list (pystr * A))
  : list (pystr * A) :=
  match l with
  | [] => [x]
  | y :: l' =>
      if str_ltb (fst y) (fst x) then y :: insert_item x l' else x :: l
  end.

Fixpoint sorted {A : Type} (l : list (pystr * A)) : list (pystr * A) :=
  match l with
  | [] => []
  | x :: l' => insert_item x (sorted l')
  end.

Definition indent : nat := 4.

Fixpoint spaces (n : nat) : string :=
  match n with
  | O => EmptyString
  | S n' => String " "%char (spaces n')
  end.

(** ['\n' + _indent * _current_indent_level] *)
Definition newline_indent (level : nat) : string :=
  nl ++ spaces (indent * level).

Definition item_separator (level : nat) : string :=
  "," ++ newline_indent level.

Definition key_separator : string := ": ".

Definition member (kv : pystr * string) : string :=
  encode_basestring_ascii (fst kv) ++ key_separator ++ snd kv.

(** What [print] sends to standard output. *)
Definition print (s : string) : string := s ++ nl.

(** How a run of the script ends: the text on standard output and the
    exception that terminated it, if any. *)
Record process : Type := mkProcess {
  stdout : string;
  uncaught : option exn
}.

Section Lister.

(** What [Response.json()] does with the body it is given: the document
    it decodes, or the exception it lets through ([JSONDecodeError] on a
    body that is no JSON document, [ValueError] on an integer beyond the
    digit limit, [RecursionError] on a nesting too deep). *)
Variable loads : list byte -> result json.

(** [float.__repr__], which the encoder uses for a [float]. *)
Variable float_repr : float -> string.

Definition Response_json (r : Response) : result json :=
  loads (content r).

(** The body of the [for] loop, threaded through the entries in order
    with the local [lang_map]. *)
Fixpoint for_items (its : list (pystr * json)) (lang_map : dict)
  : result dict :=
  match its with
  | [] => Ok lang_map
  | (key, value) :: rest =>
      name <- getitem value (lit "name") ;;
      for_items rest (Dict.set lang_map key name)
  end.

(** [get_support_languages()], over the network it queries:
    [requests_get u] is what [requests.get(u)] returns or raises. *)
Definition get_support_languages
    (requests_get : string -> result Response) : result dict :=
  r <- requests_get url ;;
  response <- Response_json r ;;
  translation <- getitem response (lit "translation") ;;
  its <- items translation ;;
  for_items its [].

Definition floatstr (o : float) : string :=
  if negb (PrimFloat.eqb o o) then "NaN"
  else if PrimFloat.eqb o infinity then "Infinity"
  else if PrimFloat.eqb o neg_infinity then "-Infinity"
  else float_repr o.

(** [_iterencode], the members of a [dict] encoded and then put in key
    order. *)
Fixpoint iterencode (level : nat) (o : json) {struct o} : string :=
  match o with
  | JNull => "null"
  | JBool true => "true"
  | JBool false => "false"
  | JInt n => intstr n
  | JFloat f => floatstr f
  | JStr s => encode_basestring_ascii s
  | JList [] => "[]"
  | JList l =>
      "[" ++ newline_indent (S level)
      ++ String.concat (item_separator (S level))
           (List.map (iterencode (S level)) l)
      ++ newline_indent level ++ "]"
  | JDict [] => "{}"
  | JDict d =>
      "{" ++ newline_indent (S level)
      ++ String.concat (item_separator (S level))
           (List.map member
              (sorted
                 (List.map
                    (fun kv => (fst kv, iterencode (S level) (snd kv)))
                    d)))
      ++ newline_indent level ++ "}"
  end.

Definition json_dumps (o : json) : string := iterencode 0 o.

(** The entry point: [print(json.dumps(lang_map, indent=4,
    sort_keys=True))] after the call, or the uncaught exception. *)
Definition main (requests_get : string -> result Response) : process :=
  match get_support_languages requests_get with
  | Ok lang_map =>
      mkProcess (print (json_dumps (JDict lang_map))) None
  | Raise e => mkProcess "" (Some e)
  end.

End Lister.

(** ** Shapes of a decoded document *)

(** [o] is an object that has the field [k]. *)
Definition has_field (o : json) (k : pystr) : bool :=
  match o with
  | JDict d =>
      match Dict.get d k with
      | Some _ => true
      | None => false
      end
  | _ => false
  end.

Definition is_dict (o : json) : bool :=
  match o with
  | JDict _ => true
  | _ => false
  end.

Definition is_str (o : json) : bool :=
  match o with
  | JStr _ => true
  | _ => false
  end.

(** The [name] of a descriptor, when it is an object that has one. *)
Definition name_of (v : json) : option json :=
  match v with
  | JDict d => Dict.get d (lit "name")
  | _ => None
  end.

(** The requests of a run all get the response [r]. *)
Definition serve (r : Response) : string -> result Response :=
  fun _ => Ok r.

(** The entries the loop adds for descriptors that all have a name. *)
Fixpoint names_of (its : list (pystr * json)) : option dict :=
  match its with
  | [] => Some []
  | (key, value) :: rest =>
      match name_of value, names_of rest with
      | Some n, Some m => Some ((key, n) :: m)
      | _, _ => None
      end
  end.

(** ** Key order *)

Definition lt_key {A : Type} (a b : pystr * A) : Prop :=
  str_lt (fst a) (fst b).

(** ** The output as the specification words it

    JSON text with four spaces in front of every member, one member per
    line, a comma between members, the braces on lines of their own;
    [{}] when there is no member.  [its] are the members in the order
    they are written. *)

Definition spec_line (float_repr : float -> string) (kv : pystr * json)
  : string :=
  spaces 4 ++ encode_basestring_ascii (fst kv) ++ ": "
  ++ iterencode float_repr 1 (snd kv).

Definition spec_text (float_repr : float -> string) (its : dict) : string :=
  match its with
  | [] => "{}"
  | _ =>
      "{" ++ nl
      ++ String.concat ("," ++ nl) (List.map (spec_line float_repr) its)
      ++ nl ++ "}"
  end.

(** ** Documents and responses of the examples *)

Definition descriptor (name : json) : json := JDict [(lit "name", name)].

Definition document (translation : json) : json :=
  JDict [(lit "translation", translation)].

Definition en : pystr * json := (lit "en", descriptor (JStr (lit "English"))).
Definition fr : pystr * json := (lit "fr", descriptor (JStr (lit "French"))).

Definition en_fr : json := document (JDict [en; fr]).
Definition fr_en : json := document (JDict [fr; en]).

Definition English_French : dict :=
  [(lit "en", JStr (lit "English")); (lit "fr", JStr (lit "French"))].

(** [{"en": "English", "fr": "French"}] as the script prints it. *)
Definition English_French_text : string :=
  "{" ++ nl
  ++ "    " ++ dquote ++ "en" ++ dquote ++ ": " ++ dquote ++ "English"
  ++ dquote ++ "," ++ nl
  ++ "    " ++ dquote ++ "fr" ++ dquote ++ ": " ++ dquote ++ "French"
  ++ dquote ++ nl
  ++ "}" ++ nl.

Fixpoint bytes_eqb (a b : list byte) : bool :=
  match a, b with
  | [], [] => true
  | x :: a', y :: b' => Byte.eqb x y && bytes_eqb a' b'
  | _, _ => false
  end.

(** A decoder given by a table from bodies to documents; a body that is
    not in the table is no JSON document. *)
Fixpoint decoder (table : list (list byte * json)) (body : list byte)
  : result json :=
  match table with
  | [] => Raise JSONDecodeError
  | (b, v) :: rest => if bytes_eqb b body then Ok v else decoder rest body
  end.

(** The responses [n] of the examples carry the body [[n]]. *)
Definition body (n : byte) : list byte := [n].

Definition float_repr0 (f : float) : string := "0.0".






(** ** The same document in another order

    A [dict] holds each key once. *)

Fixpoint distinct (l : list pystr) : bool :=
  match l with
  | [] => true
  | k :: l' => negb (existsb (str_eqb k) l') && distinct l'
  end.

(** A decoded document, all of whose objects are such [dict]s. *)
Fixpoint well_formed (o : json) : bool :=
  match o with
  | JList l => forallb well_formed l
  | JDict d =>
      distinct (List.map fst d)
      && forallb (fun kv => well_formed (snd kv)) d
  | _ => true
  end.

(** [reordered o o']: [o'] is [o] with the entries of its objects, at any
    depth, listed in another order; arrays keep their order. *)
#[warnings="-register-all"]
Inductive reordered : json -> json -> Prop :=
| reordered_null : reordered JNull JNull
| reordered_bool b : reordered (JBool b) (JBool b)
| reordered_int n : reordered (JInt n) (JInt n)
| reordered_float f : reordered (JFloat f) (JFloat f)
| reordered_str s : reordered (JStr s) (JStr s)
| reordered_list l l' :
    Forall2 reordered l l' -> reordered (JList l) (JList l')
| reordered_dict d d1 d' :
    Permutation d d1 ->
    Forall2 (fun a b => fst a = fst b /\ reordered (snd a) (snd b)) d1 d' ->
    reordered (JDict d) (JDict d').

(** The text of an array and of an object, from the texts of their
    elements and members. *)
Definition list_text (level : nat) (elements : list string) : string :=
  match elements with
  | [] => "[]"
  | _ =>
      "[" ++ newline_indent (S level)
      ++ String.concat (item_separator (S level)) elements
      ++ newline_indent level ++ "]"
  end.

Definition dict_text (level : nat) (members : list (pystr * string))
  : string :=
  match members with
  | [] => "{}"
  | _ =>
      "{" ++ newline_indent (S level)
      ++ String.concat (item_separator (S level))
           (List.map member (sorted members))
      ++ newline_indent level ++ "}"
  end.

(** What a run prints once the body is decoded to [response]. *)
Definition printed (float_repr : float -> string) (response : json)
  : string :=
  match (translation <- getitem response (lit "translation") ;;
         its <- items translation ;;
         for_items its []) with
  | Ok lang_map => print (json_dumps float_repr (JDict lang_map))
  | Raise _ => EmptyString
  end.

(** ** Reading the output back

    A reader of JSON text laid out with an indent of four: the values of
    the JSON grammar (strings with their escapes, integers, the numbers
    that are left to the runtime's [float], [null], [true], [false],
    arrays, objects), every element or member on a line of its own behind
    four spaces per nesting level, the closing bracket on a line of its
    own, [": "] after a key and nothing else between the tokens.  It
    returns the value read, the members of an object in the order of the
    text. *)

















Section Reader.

(** The runtime's [float] of a number that is no integer. *)
Variable float_of_text : string -> option float.




End Reader.













(** ** The characters of the output *)

(** A character between the space and the tilde. *)
Definition printable (c : ascii) : bool :=
  N.leb 32 (N_of_ascii c) && N.leb (N_of_ascii c) 126.

(** A text of such characters only. *)
Fixpoint visible (s : string) : bool :=
  match s with
  | EmptyString => true
  | String c s' => printable c && visible s'
  end.

(** A text of such characters and newlines. *)
Fixpoint plain (s : string) : bool :=
  match s with
  | EmptyString => true
  | String c s' => (printable c || Ascii.eqb c "010"%char) && plain s'
  end.

(** How many lines a text ends. *)
Fixpoint newlines (s : string) : nat :=
  match s with
  | EmptyString => 0
  | String c s' => (if Ascii.eqb c "010"%char then 1 else 0) + newlines s'
  end.

(** Two descriptors the loop cannot tell apart: the same kind of value
    and the same `name`. *)
Definition same_name (a b : pystr * json) : Prop :=
  fst a = fst b
  /\ is_dict (snd a) = is_dict (snd b)
  /\ name_of (snd a) = name_of (snd b).

(** A descriptor as the service sends it, with fields the script does
    not read. *)
Definition full_descriptor (name native : string) : json :=
  JDict [(lit "name", JStr (lit name));
         (lit "nativeName", JStr (lit native));
         (lit "dir", JStr (lit "ltr"))].

(** * Properties *)

(** ** Strings *)

Lemma str_eqb_eq (s t : pystr) : str_eqb s t = true <-> s = t.
Proof.
  revert t; induction s as [|a s IH]; intros [|b t]; simpl;
    try (split; [discriminate | discriminate]); try tauto.
  rewrite andb_true_iff, N.eqb_eq, IH.
  split; [intros [-> ->]; reflexivity | intros H; inversion H; auto].
Qed.

Lemma str_eqb_refl (s : pystr) : str_eqb s s = true.
Proof. apply str_eqb_eq; reflexivity. Qed.

Lemma str_eqb_neq (s t : pystr) : str_eqb s t = false <-> s <> t.
Proof.
  rewrite <- str_eqb_eq. destruct (str_eqb s t); split; congruence.
Qed.

Lemma str_ltb_irrefl (s : pystr) : str_ltb s s = false.
Proof.
  induction s as [|a s IH]; simpl; [reflexivity|].
  rewrite N.ltb_irrefl, N.eqb_refl; exact IH.
Qed.

Lemma str_ltb_trans (s t u : pystr) :
  str_ltb s t = true -> str_ltb t u = true -> str_ltb s u = true.
Proof.
  revert t u; induction s as [|a s IH]; intros [|b t] [|c u]; simpl;
    try congruence.
  destruct (N.ltb_spec a b) as [Hab|Hab].
  - intros _. destruct (N.ltb_spec b c) as [Hbc|Hbc].
    + intros _. destruct (N.ltb_spec a c); [reflexivity | lia].
    + destruct (N.eqb_spec b c) as [->|]; [|discriminate].
      intros _. destruct (N.ltb_spec a c); [reflexivity | lia].
  - destruct (N.eqb_spec a b) as [->|]; [|discriminate].
    intros Hst. destruct (N.ltb_spec b c) as [Hbc|Hbc]; [reflexivity|].
    destruct (N.eqb_spec b c) as [->|]; [|discriminate].
    apply IH; assumption.
Qed.

Lemma str_ltb_total (s t : pystr) :
  str_ltb s t = false -> s <> t -> str_ltb t s = true.
Proof.
  revert t; induction s as [|a s IH]; intros [|b t]; simpl;
    try congruence.
  destruct (N.ltb_spec a b) as [Hab|Hab]; [discriminate|].
  destruct (N.eqb_spec a b) as [->|Hne].
  - intros Hst Hneq. rewrite N.ltb_irrefl, N.eqb_refl.
    apply IH; [assumption | congruence].
  - intros _ _. destruct (N.ltb_spec b a); [reflexivity | lia].
Qed.

(** ** The [dict] *)

Lemma get_none_keys {A : Type} (d : list (pystr * A)) (k : pystr) :
  Dict.get d k = None <-> ~ In k (Dict.keys d).
Proof.
  induction d as [|[k' v] d IH]; simpl; [tauto|].
  destruct (str_eqb k' k) eqn:E.
  - apply str_eqb_eq in E. split; [discriminate | intros H; elim H; auto].
  - apply str_eqb_neq in E. rewrite IH. tauto.
Qed.

Lemma get_in {A : Type} (d : list (pystr * A)) (k : pystr) (v : A) :
  NoDup (Dict.keys d) -> In (k, v) d -> Dict.get d k = Some v.
Proof.
  induction d as [|[k' v'] d IH]; simpl; [tauto|].
  intros Hnd [Heq|Hin].
  - inversion Heq; subst. rewrite str_eqb_refl; reflexivity.
  - inversion Hnd as [|? ? Hk Hnd']; subst.
    destruct (str_eqb k' k) eqn:E.
    + apply str_eqb_eq in E; subst. elim Hk.
      change k with (fst (k, v)). apply in_map; assumption.
    + apply IH; assumption.
Qed.

Lemma set_fresh {A : Type} (d : list (pystr * A)) (k : pystr) (v : A) :
  ~ In k (Dict.keys d) -> Dict.set d k v = d ++ [(k, v)].
Proof.
  induction d as [|[k' v'] d IH]; simpl; [reflexivity|].
  intros Hk. destruct (str_eqb k' k) eqn:E.
  - apply str_eqb_eq in E. elim Hk; auto.
  - rewrite IH; [reflexivity | tauto].
Qed.

Lemma keys_set {A : Type} (d : list (pystr * A)) (k : pystr) (v : A) :
  Dict.keys (Dict.set d k v)
  = match Dict.get d k with
    | Some _ => Dict.keys d
    | None => Dict.keys d ++ [k]
    end.
Proof.
  induction d as [|[k' v'] d IH]; simpl; [reflexivity|].
  destruct (str_eqb k' k) eqn:E; simpl; [reflexivity|].
  rewrite IH. destruct (Dict.get d k); reflexivity.
Qed.


(** ** The loop *)

Lemma getitem_name (v : json) :
  getitem v (lit "name")
  = match name_of v with
    | Some n => Ok n
    | None =>
        Raise (if is_dict v then KeyError (lit "name") else TypeError)
    end.
Proof.
  destruct v; reflexivity.
Qed.

Lemma has_field_name (v : json) :
  has_field v (lit "name") = false <-> name_of v = None.
Proof.
  destruct v; simpl; try tauto.
  destruct (Dict.get d (lit "name")); split; congruence.
Qed.

Lemma names_of_all (its : list (pystr * json)) :
  (forall k v, In (k, v) its -> name_of v <> None) ->
  exists m, names_of its = Some m.
Proof.
  induction its as [|[k v] its IH]; simpl; intros H; [eauto|].
  destruct (name_of v) as [n|] eqn:E; [|elim (H k v); auto].
  destruct IH as [m ->]; eauto.
Qed.

Lemma names_of_keys (its : list (pystr * json)) (m : dict) :
  names_of its = Some m -> Dict.keys m = Dict.keys its.
Proof.
  revert m; induction its as [|[k v] its IH]; simpl; intros m.
  - intros H; inversion H; reflexivity.
  - destruct (name_of v); [|discriminate].
    destruct (names_of its) as [m'|]; [|discriminate].
    intros H; inversion H; subst; simpl. f_equal. apply IH; reflexivity.
Qed.

Lemma names_of_in (its : list (pystr * json)) (m : dict) k v n :
  names_of its = Some m -> In (k, v) its -> name_of v = Some n ->
  In (k, n) m.
Proof.
  revert m; induction its as [|[k' v'] its IH]; simpl; intros m; [tauto|].
  destruct (name_of v') as [n'|] eqn:E; [|discriminate].
  destruct (names_of its) as [m'|]; [|discriminate].
  intros H [Heq|Hin] Hn; inversion H; subst; simpl.
  - inversion Heq; subst. left; congruence.
  - right. apply IH; auto.
Qed.

(** With distinct keys the loop appends one entry per descriptor, in the
    order of the response. *)
Lemma for_items_ok (its : list (pystr * json)) (m acc : dict) :
  names_of its = Some m ->
  NoDup (Dict.keys acc ++ Dict.keys its) ->
  for_items its acc = Ok (acc ++ m).
Proof.
  revert m acc; induction its as [|[k v] its IH]; simpl; intros m acc.
  - intros H _; inversion H. rewrite app_nil_r; reflexivity.
  - rewrite getitem_name. destruct (name_of v) as [n|]; [|discriminate].
    destruct (names_of its) as [m'|]; [|discriminate].
    intros H Hnd; inversion H; subst; simpl.
    assert (Hk : ~ In k (Dict.keys acc)).
    { apply NoDup_remove_2 in Hnd. intros Hin; apply Hnd.
      apply in_or_app; auto. }
    rewrite set_fresh by assumption.
    rewrite (IH m' (acc ++ [(k, n)])); [|reflexivity|].
    + rewrite <- app_assoc; reflexivity.
    + unfold Dict.keys in *. rewrite map_app, <- app_assoc. exact Hnd.
Qed.

(** A descriptor without a name stops the loop, whatever [lang_map]
    holds by then. *)
Lemma for_items_raise (its : list (pystr * json)) (acc : dict) k v :
  In (k, v) its -> name_of v = None ->
  exists e, for_items its acc = Raise e
            /\ (e = KeyError (lit "name") \/ e = TypeError).
Proof.
  revert acc; induction its as [|[k' v'] its IH]; simpl; intros acc;
    [tauto|].
  intros Hin Hv. rewrite getitem_name.
  destruct (name_of v') as [n|] eqn:E.
  - destruct Hin as [Heq|Hin]; [inversion Heq; congruence|].
    simpl. apply IH; assumption.
  - simpl. eexists; split; [reflexivity|].
    destruct (is_dict v'); auto.
Qed.


(** The loop over [a ++ b] is the loop over [a], then the loop over [b]
    from the [lang_map] reached. *)
Lemma for_items_app (a b : list (pystr * json)) (acc : dict) :
  for_items (a ++ b) acc = (m <- for_items a acc ;; for_items b m).
Proof.
  revert acc; induction a as [|[k v] a IH]; simpl; intros acc;
    [reflexivity|].
  destruct (getitem v (lit "name")) as [n|e]; simpl; [apply IH | reflexivity].
Qed.

Section Projection.

Variable loads : list byte -> result json.
Variable requests_get : string -> result Response.
Variable r : Response.
Variable response : json.
Hypothesis Hget : requests_get url = Ok r.
Hypothesis Hjson : Response_json loads r = Ok response.

(** Once the response is decoded, the call is the two lookups and
    the loop. *)
Lemma get_support_languages_decoded :
  get_support_languages loads requests_get
  = (translation <- getitem response (lit "translation") ;;
     its <- items translation ;;
     for_items its []).
Proof.
  unfold get_support_languages. rewrite Hget; simpl.
  rewrite Hjson; reflexivity.
Qed.

Lemma get_support_languages_loop (d t : dict) :
  response = JDict d ->
  Dict.get d (lit "translation") = Some (JDict t) ->
  get_support_languages loads requests_get = for_items t [].
Proof.
  intros Hr Ht. rewrite get_support_languages_decoded, Hr; simpl.
  rewrite Ht; reflexivity.
Qed.

End Projection.


(** ** Sorting the members *)

Lemma insert_item_perm {A : Type} (x : pystr * A) (l : list (pystr * A)) :
  Permutation (insert_item x l) (x :: l).
Proof.
  induction l as [|y l IH]; simpl; [reflexivity|].
  destruct (str_ltb (fst y) (fst x)); [|reflexivity].
  rewrite IH. apply perm_swap.
Qed.

Lemma sorted_perm {A : Type} (l : list (pystr * A)) :
  Permutation (sorted l) l.
Proof.
  induction l as [|x l IH]; simpl; [reflexivity|].
  rewrite insert_item_perm, IH; reflexivity.
Qed.

Lemma insert_item_sorted {A : Type} (x : pystr * A) (l : list (pystr * A)) :
  StronglySorted lt_key l -> ~ In (fst x) (Dict.keys l) ->
  StronglySorted lt_key (insert_item x l).
Proof.
  induction l as [|y l IH]; simpl; intros Hs Hx.
  - repeat constructor.
  - inversion Hs as [|? ? Hs' Hall]; subst.
    destruct (str_ltb (fst y) (fst x)) eqn:E.
    + constructor; [apply IH; tauto|].
      apply Forall_forall. intros z Hz.
      apply (Permutation_in _ (insert_item_perm x l)) in Hz.
      destruct Hz as [<-|Hz]; [exact E|].
      rewrite Forall_forall in Hall; auto.
    + assert (Hxy : lt_key x y).
      { apply str_ltb_total; [exact E | intros Heq; apply Hx; auto]. }
      constructor; [assumption|].
      constructor; [assumption|].
      apply Forall_forall. intros z Hz. rewrite Forall_forall in Hall.
      exact (str_ltb_trans _ _ _ Hxy (Hall z Hz)).
Qed.

(** The members of a [dict] come out in strictly increasing key order. *)
Lemma sorted_sorted {A : Type} (l : list (pystr * A)) :
  NoDup (Dict.keys l) -> StronglySorted lt_key (sorted l).
Proof.
  induction l as [|x l IH]; simpl; intros Hnd; [constructor|].
  inversion Hnd as [|? ? Hx Hnd']; subst.
  apply insert_item_sorted; [auto|].
  intros Hin; apply Hx.
  unfold Dict.keys in *.
  apply (Permutation_in _ (Permutation_map fst (sorted_perm l))); assumption.
Qed.

(** There is one way to put given entries in strictly increasing order. *)
Lemma sorted_unique {A : Type} (l1 l2 : list (pystr * A)) :
  StronglySorted lt_key l1 -> StronglySorted lt_key l2 ->
  Permutation l1 l2 -> l1 = l2.
Proof.
  revert l2; induction l1 as [|x l1 IH]; intros l2 H1 H2 Hp.
  - apply Permutation_nil in Hp; auto.
  - destruct l2 as [|y l2];
      [apply Permutation_sym, Permutation_nil in Hp; discriminate|].
    inversion H1 as [|? ? H1' A1]; inversion H2 as [|? ? H2' A2]; subst.
    rewrite Forall_forall in A1, A2.
    assert (Hxy : x = y).
    { assert (Hx : In x (y :: l2))
        by (apply (Permutation_in _ Hp); left; reflexivity).
      assert (Hy : In y (x :: l1))
        by (apply (Permutation_in _ (Permutation_sym Hp)); left;
            reflexivity).
      destruct Hx as [Hx|Hx]; [auto|].
      destruct Hy as [Hy|Hy]; [auto|].
      pose proof (str_ltb_trans _ _ _ (A1 y Hy) (A2 x Hx)) as Hc.
      rewrite str_ltb_irrefl in Hc; discriminate. }
    subst y. f_equal. apply IH; auto.
    apply Permutation_cons_inv in Hp; assumption.
Qed.

(** So the order of the entries of a [dict] does not show in the order
    of its members. *)
Lemma sorted_perm_eq {A : Type} (l l' : list (pystr * A)) :
  NoDup (Dict.keys l) -> Permutation l l' -> sorted l = sorted l'.
Proof.
  intros Hnd Hp.
  assert (Hnd' : NoDup (Dict.keys l')).
  { unfold Dict.keys in *.
    apply (Permutation_NoDup (Permutation_map fst Hp)); assumption. }
  apply sorted_unique; try (apply sorted_sorted; assumption).
  rewrite !sorted_perm; assumption.
Qed.

Lemma insert_item_map {A B : Type} (f : A -> B) x (l : list (pystr * A)) :
  insert_item (fst x, f (snd x)) (List.map (fun kv => (fst kv, f (snd kv))) l)
  = List.map (fun kv => (fst kv, f (snd kv))) (insert_item x l).
Proof.
  induction l as [|y l IH]; simpl; [reflexivity|].
  destruct (str_ltb (fst y) (fst x)); simpl; [rewrite IH|]; reflexivity.
Qed.

(** Encoding the values before or after sorting is the same. *)
Lemma sorted_map {A B : Type} (f : A -> B) (l : list (pystr * A)) :
  sorted (List.map (fun kv => (fst kv, f (snd kv))) l)
  = List.map (fun kv => (fst kv, f (snd kv))) (sorted l).
Proof.
  induction l as [|x l IH]; simpl; [reflexivity|].
  rewrite IH. apply insert_item_map.
Qed.

(** ** Text *)

Lemma append_assoc (s t u : string) :
  ((s ++ t) ++ u = s ++ (t ++ u))%string.
Proof.
  induction s as [|c s IH]; simpl; [reflexivity | rewrite IH; reflexivity].
Qed.

(** Joining with a separator that ends in a prefix puts the prefix in
    front of every piece but the first. *)
Lemma concat_prefix (sep pre : string) (l : list string) :
  l <> [] ->
  (pre ++ String.concat (sep ++ pre) l)%string
  = String.concat sep (List.map (append pre) l).
Proof.
  destruct l as [|x l]; [congruence|]. intros _.
  revert x; induction l as [|y l IH]; intros x; [reflexivity|].
  change (String.concat (sep ++ pre) (x :: y :: l))
    with (x ++ (sep ++ pre) ++ String.concat (sep ++ pre) (y :: l))%string.
  change (String.concat sep (List.map (append pre) (x :: y :: l)))
    with ((pre ++ x) ++ sep
          ++ String.concat sep (List.map (append pre) (y :: l)))%string.
  rewrite <- IH, !append_assoc. reflexivity.
Qed.

(** The encoder writes a [dict] as the specification words it, its
    members in key order. *)
Lemma json_dumps_dict float_repr (d : dict) :
  json_dumps float_repr (JDict d) = spec_text float_repr (sorted d).
Proof.
  destruct d as [|x d]; [reflexivity|].
  unfold json_dumps.
  change (iterencode float_repr 0 (JDict (x :: d)))
    with ("{" ++ newline_indent 1
          ++ String.concat (item_separator 1)
               (List.map member
                  (sorted
                     (List.map
                        (fun kv => (fst kv, iterencode float_repr 1 (snd kv)))
                        (x :: d))))
          ++ newline_indent 0 ++ "}")%string.
  rewrite sorted_map, map_map.
  destruct (sorted (x :: d)) as [|y l] eqn:E.
  - pose proof (sorted_perm (x :: d)) as Hp. rewrite E in Hp.
    apply Permutation_nil in Hp; discriminate.
  - unfold spec_text.
    change (newline_indent 1) with (nl ++ spaces 4)%string.
    change (item_separator 1) with ("," ++ nl ++ spaces 4)%string.
    change (newline_indent 0) with nl.
    change ("," ++ nl ++ spaces 4)%string
      with (("," ++ nl) ++ spaces 4)%string.
    rewrite (append_assoc nl (spaces 4)).
    rewrite <- (append_assoc (spaces 4)).
    rewrite concat_prefix by discriminate. rewrite map_map. reflexivity.
Qed.

(** ** What the call returns *)

(** C1: when the `translation` field of the response maps language codes
    to descriptors that each have a `name`, [get_support_languages]
    returns a mapping with exactly one entry per code of that field, in
    the order of the response, each code mapped to the `name` of its
    descriptor.  The field is a [dict], so it has no code twice. *)
Theorem get_support_languages_maps_code_to_name
    loads requests_get r (d t : dict) :
  requests_get url = Ok r ->
  Response_json loads r = Ok (JDict d) ->
  Dict.get d (lit "translation") = Some (JDict t) ->
  NoDup (Dict.keys t) ->
  (forall code v, In (code, v) t ->
     exists dd n, v = JDict dd /\ Dict.get dd (lit "name") = Some n) ->
  exists lang_map,
    get_support_languages loads requests_get = Ok lang_map
    /\ Dict.keys lang_map = Dict.keys t
    /\ NoDup (Dict.keys lang_map)
    /\ (forall code dd, In (code, JDict dd) t ->
          Dict.get lang_map code = Dict.get dd (lit "name")).
Proof.
  intros Hget Hjson Ht Hnd Hall.
  destruct (names_of_all t) as [m Hm].
  { intros k v Hin. destruct (Hall k v Hin) as (dd & n & -> & Hn).
    simpl; congruence. }
  exists m.
  rewrite (get_support_languages_loop _ _ _ _ Hget Hjson d t eq_refl Ht).
  pose proof (names_of_keys _ _ Hm) as Hk.
  split; [|split; [|split]].
  - apply (for_items_ok t m []); assumption.
  - assumption.
  - rewrite Hk; assumption.
  - intros code dd Hin.
    destruct (Hall _ _ Hin) as (dd' & n & Heq & Hn).
    inversion Heq; subst dd'. rewrite Hn.
    apply get_in; [rewrite Hk; assumption|].
    apply (names_of_in t m code (JDict dd) n); assumption.
Qed.

(** The response of the specification gives [{"en": "English", "fr":
    "French"}]. *)
Lemma get_support_languages_en_fr :
  (exists lang_map,
     get_support_languages (decoder [(body x00, en_fr)])
       (serve (mkResponse 200 (body x00))) = Ok lang_map
     /\ Dict.keys lang_map = [lit "en"; lit "fr"]
     /\ NoDup (Dict.keys lang_map)
     /\ (forall code dd,
           In (code, JDict dd) [en; fr] ->
           Dict.get lang_map code = Dict.get dd (lit "name")))
  /\ get_support_languages (decoder [(body x00, en_fr)])
       (serve (mkResponse 200 (body x00))) = Ok English_French.
Proof.
  split; [|reflexivity].
  apply (get_support_languages_maps_code_to_name
           (decoder [(body x00, en_fr)])
           (serve (mkResponse 200 (body x00)))
           (mkResponse 200 (body x00))
           [(lit "translation", JDict [en; fr])] [en; fr]).
  - reflexivity.
  - reflexivity.
  - reflexivity.
  - repeat constructor; cbv; intuition discriminate.
  - intros code v [H|[H|[]]]; inversion H; subst; eexists _, _; split; reflexivity.
Defined.

(** C9: the `name` of a descriptor is not checked to be a string: when it
    holds another JSON value (a number, [null], an object), the call
    returns a mapping in which the code has that very value, so the
    Language Map has an entry that is not a string. *)
Theorem name_not_validated
    loads requests_get r (d t : dict) code (dd : dict) (x : json) :
  requests_get url = Ok r ->
  Response_json loads r = Ok (JDict d) ->
  Dict.get d (lit "translation") = Some (JDict t) ->
  NoDup (Dict.keys t) ->
  (forall k v, In (k, v) t -> has_field v (lit "name") = true) ->
  In (code, JDict dd) t ->
  Dict.get dd (lit "name") = Some x ->
  is_str x = false ->
  exists lang_map,
    get_support_languages loads requests_get = Ok lang_map
    /\ Dict.get lang_map code = Some x
    /\ exists k v, In (k, v) lang_map /\ is_str v = false.
Proof.
  intros Hget Hjson Ht Hnd Hall Hin Hx Hstr.
  destruct (names_of_all t) as [m Hm].
  { intros k v Hkv Hnone. apply has_field_name in Hnone.
    rewrite (Hall k v Hkv) in Hnone; discriminate. }
  exists m.
  rewrite (get_support_languages_loop _ _ _ _ Hget Hjson d t eq_refl Ht).
  assert (Hcx : In (code, x) m)
    by (apply (names_of_in t m code (JDict dd) x); assumption).
  split; [|split].
  - apply (for_items_ok t m []); assumption.
  - apply get_in; [|assumption].
    rewrite (names_of_keys _ _ Hm); assumption.
  - exists code, x; auto.
Qed.

(** A descriptor whose name is the number 5. *)
Lemma name_not_validated_number :
  (exists lang_map,
     get_support_languages
       (decoder [(body x00, document (JDict [(lit "xx", descriptor (JInt 5))]))])
       (serve (mkResponse 200 (body x00))) = Ok lang_map
     /\ Dict.get lang_map (lit "xx") = Some (JInt 5)
     /\ exists k v, In (k, v) lang_map /\ is_str v = false)
  /\ get_support_languages
       (decoder [(body x00, document (JDict [(lit "xx", descriptor (JInt 5))]))])
       (serve (mkResponse 200 (body x00)))
     = Ok [(lit "xx", JInt 5)].
Proof.
  split; [|reflexivity].
  apply (name_not_validated
           (decoder
              [(body x00, document (JDict [(lit "xx", descriptor (JInt 5))]))])
           (serve (mkResponse 200 (body x00)))
           (mkResponse 200 (body x00))
           [(lit "translation", JDict [(lit "xx", descriptor (JInt 5))])]
           [(lit "xx", descriptor (JInt 5))]
           (lit "xx") [(lit "name", JInt 5)] (JInt 5)).
  - reflexivity.
  - reflexivity.
  - reflexivity.
  - repeat constructor; cbv; intuition discriminate.
  - intros k v [H|[]]; inversion H; subst; reflexivity.
  - left; reflexivity.
  - reflexivity.
  - reflexivity.
Defined.

(** ** When the call raises *)

(** C2: when the decoded body has no `translation` field, the call raises
    ([KeyError] on an object, [TypeError] on any other document) and
    returns no mapping, empty or partial. *)
Theorem missing_translation_raises loads requests_get r response :
  requests_get url = Ok r ->
  Response_json loads r = Ok response ->
  has_field response (lit "translation") = false ->
  get_support_languages loads requests_get
  = Raise (if is_dict response then KeyError (lit "translation")
           else TypeError)
  /\ forall lang_map,
       get_support_languages loads requests_get <> Ok lang_map.
Proof.
  intros Hget Hjson Hno.
  rewrite (get_support_languages_decoded _ _ _ _ Hget Hjson).
  assert (H : getitem response (lit "translation")
              = Raise (if is_dict response then KeyError (lit "translation")
                       else TypeError)).
  { destruct response; simpl in *; try reflexivity.
    destruct (Dict.get d (lit "translation")); [discriminate | reflexivity]. }
  rewrite H; simpl. split; [reflexivity | discriminate].
Qed.

(** A body that decodes to the empty object. *)
Lemma missing_translation_raises_empty_object :
  get_support_languages (decoder [(body x00, JDict [])])
    (serve (mkResponse 200 (body x00)))
  = Raise (KeyError (lit "translation"))
  /\ forall lang_map,
       get_support_languages (decoder [(body x00, JDict [])])
         (serve (mkResponse 200 (body x00))) <> Ok lang_map.
Proof.
  apply (missing_translation_raises (decoder [(body x00, JDict [])])
           (serve (mkResponse 200 (body x00)))
           (mkResponse 200 (body x00)) (JDict []));
    reflexivity.
Defined.

(** C3: when a descriptor under `translation` has no `name` field, the
    call raises: [KeyError] for the missing name, or [TypeError] at a
    descriptor that is not an object; no value is put in its place. *)
Theorem missing_name_raises
    loads requests_get r (d t : dict) code (v : json) :
  requests_get url = Ok r ->
  Response_json loads r = Ok (JDict d) ->
  Dict.get d (lit "translation") = Some (JDict t) ->
  In (code, v) t ->
  has_field v (lit "name") = false ->
  exists e,
    get_support_languages loads requests_get = Raise e
    /\ (e = KeyError (lit "name") \/ e = TypeError).
Proof.
  intros Hget Hjson Ht Hin Hno.
  rewrite (get_support_languages_loop _ _ _ _ Hget Hjson d t eq_refl Ht).
  apply (for_items_raise t [] code v Hin).
  apply has_field_name; assumption.
Qed.

(** The second descriptor has no name. *)
Lemma missing_name_raises_second :
  (exists e,
     get_support_languages
       (decoder [(body x00, document (JDict [en; (lit "fr", JDict [])]))])
       (serve (mkResponse 200 (body x00))) = Raise e
     /\ (e = KeyError (lit "name") \/ e = TypeError))
  /\ get_support_languages
       (decoder [(body x00, document (JDict [en; (lit "fr", JDict [])]))])
       (serve (mkResponse 200 (body x00)))
     = Raise (KeyError (lit "name")).
Proof.
  split; [|reflexivity].
  apply (missing_name_raises
           (decoder [(body x00, document (JDict [en; (lit "fr", JDict [])]))])
           (serve (mkResponse 200 (body x00)))
           (mkResponse 200 (body x00))
           [(lit "translation", JDict [en; (lit "fr", JDict [])])]
           [en; (lit "fr", JDict [])] (lit "fr") (JDict [])).
  - reflexivity.
  - reflexivity.
  - reflexivity.
  - right; left; reflexivity.
  - reflexivity.
Defined.

(** C10: when the `translation` field is there but is not an object (an
    array, a string, a number, ...), the call raises [AttributeError] at
    [.items()] and returns no mapping. *)
Theorem translation_not_object_raises
    loads requests_get r (d : dict) (translation : json) :
  requests_get url = Ok r ->
  Response_json loads r = Ok (JDict d) ->
  Dict.get d (lit "translation") = Some translation ->
  is_dict translation = false ->
  get_support_languages loads requests_get = Raise AttributeError
  /\ forall lang_map,
       get_support_languages loads requests_get <> Ok lang_map.
Proof.
  intros Hget Hjson Ht Hno.
  rewrite (get_support_languages_decoded _ _ _ _ Hget Hjson). simpl.
  rewrite Ht; simpl.
  destruct translation; simpl in *; try discriminate;
    (split; [reflexivity | discriminate]).
Qed.

(** `translation` is an array. *)
Lemma translation_not_object_raises_array :
  get_support_languages
    (decoder [(body x00, document (JList [descriptor (JStr (lit "English"))]))])
    (serve (mkResponse 200 (body x00))) = Raise AttributeError
  /\ forall lang_map,
       get_support_languages
         (decoder
            [(body x00, document (JList [descriptor (JStr (lit "English"))]))])
         (serve (mkResponse 200 (body x00))) <> Ok lang_map.
Proof.
  apply (translation_not_object_raises
           (decoder
              [(body x00, document (JList [descriptor (JStr (lit "English"))]))])
           (serve (mkResponse 200 (body x00)))
           (mkResponse 200 (body x00))
           [(lit "translation", JList [descriptor (JStr (lit "English"))])]
           (JList [descriptor (JStr (lit "English"))]));
    reflexivity.
Defined.

(** C8: when a descriptor has no `name`, nothing of the mapping built so
    far is returned: whatever [lang_map] holds after the descriptors
    before the faulty one, the loop ends in the exception, the call
    returns no mapping, and the run prints nothing and ends in that
    exception. *)
Theorem missing_name_no_partial_mapping
    loads float_repr requests_get r (d before rest : dict) code (v : json) :
  requests_get url = Ok r ->
  Response_json loads r = Ok (JDict d) ->
  Dict.get d (lit "translation")
  = Some (JDict (before ++ (code, v) :: rest)) ->
  has_field v (lit "name") = false ->
  (forall partial,
     for_items before [] = Ok partial ->
     exists e,
       for_items ((code, v) :: rest) partial = Raise e
       /\ get_support_languages loads requests_get = Raise e)
  /\ (forall lang_map,
        get_support_languages loads requests_get <> Ok lang_map)
  /\ exists e, main loads float_repr requests_get = mkProcess "" (Some e).
Proof.
  intros Hget Hjson Ht Hno.
  pose proof (get_support_languages_loop _ _ _ _ Hget Hjson d _ eq_refl Ht)
    as Hloop.
  destruct (for_items_raise (before ++ (code, v) :: rest) [] code v)
    as (e & He & _).
  { apply in_or_app; right; left; reflexivity. }
  { apply has_field_name; assumption. }
  split; [|split].
  - intros partial Hpartial. exists e.
    rewrite for_items_app, Hpartial in He.
    split; [exact He|].
    rewrite Hloop, for_items_app, Hpartial. exact He.
  - intros lang_map. rewrite Hloop, He. discriminate.
  - exists e. unfold main. rewrite Hloop, He. reflexivity.
Qed.

(** `en` is read, `fr` has no name: nothing is printed. *)
Lemma missing_name_no_partial_mapping_en :
  for_items [en] [] = Ok [(lit "en", JStr (lit "English"))]
  /\ main
       (decoder [(body x00, document (JDict [en; (lit "fr", JDict [])]))])
       float_repr0 (serve (mkResponse 200 (body x00)))
     = mkProcess "" (Some (KeyError (lit "name")))
  /\ ((forall partial,
         for_items [en] [] = Ok partial ->
         exists e,
           for_items [(lit "fr", JDict [])] partial = Raise e
           /\ get_support_languages
                (decoder
                   [(body x00, document (JDict [en; (lit "fr", JDict [])]))])
                (serve (mkResponse 200 (body x00))) = Raise e)
      /\ (forall lang_map,
            get_support_languages
              (decoder
                 [(body x00, document (JDict [en; (lit "fr", JDict [])]))])
              (serve (mkResponse 200 (body x00))) <> Ok lang_map)
      /\ exists e,
           main
             (decoder
                [(body x00, document (JDict [en; (lit "fr", JDict [])]))])
             float_repr0 (serve (mkResponse 200 (body x00)))
           = mkProcess "" (Some e)).
Proof.
  split; [reflexivity|]. split; [reflexivity|].
  apply (missing_name_no_partial_mapping
           (decoder [(body x00, document (JDict [en; (lit "fr", JDict [])]))])
           float_repr0
           (serve (mkResponse 200 (body x00)))
           (mkResponse 200 (body x00))
           [(lit "translation", JDict [en; (lit "fr", JDict [])])]
           [en] [] (lit "fr") (JDict []));
    reflexivity.
Defined.

(** ** What the script prints *)

(** C5: when `translation` has no entry, the call returns the empty
    mapping, its JSON text is [{}], and that text and a newline is all
    the script prints. *)
Theorem empty_translation_prints_braces
    loads float_repr requests_get r (d : dict) :
  requests_get url = Ok r ->
  Response_json loads r = Ok (JDict d) ->
  Dict.get d (lit "translation") = Some (JDict []) ->
  get_support_languages loads requests_get = Ok []
  /\ json_dumps float_repr (JDict []) = "{}"%string
  /\ main loads float_repr requests_get = mkProcess ("{}" ++ nl) None.
Proof.
  intros Hget Hjson Ht.
  pose proof (get_support_languages_loop _ _ _ _ Hget Hjson d [] eq_refl Ht)
    as Hloop.
  simpl in Hloop. unfold main. rewrite Hloop.
  repeat split; reflexivity.
Qed.

Lemma empty_translation_prints_braces_200 :
  get_support_languages (decoder [(body x00, document (JDict []))])
    (serve (mkResponse 200 (body x00))) = Ok []
  /\ json_dumps float_repr0 (JDict []) = "{}"%string
  /\ main (decoder [(body x00, document (JDict []))]) float_repr0
       (serve (mkResponse 200 (body x00)))
     = mkProcess ("{}" ++ nl) None.
Proof.
  apply (empty_translation_prints_braces
           (decoder [(body x00, document (JDict []))]) float_repr0
           (serve (mkResponse 200 (body x00)))
           (mkResponse 200 (body x00))
           [(lit "translation", JDict [])]);
    reflexivity.
Defined.

(** ** The status code *)

(** C7: the status code is not looked at: two responses with the same
    body, whatever their status codes, give the same mapping or the same
    exception; the body is decoded in both, and a body on which the
    decoder raises makes the call raise the decoder's exception. *)
Theorem status_code_not_inspected loads requests_get1 requests_get2 r1 r2 :
  requests_get1 url = Ok r1 ->
  requests_get2 url = Ok r2 ->
  content r1 = content r2 ->
  get_support_languages loads requests_get1
  = get_support_languages loads requests_get2
  /\ (forall e, loads (content r1) = Raise e ->
      get_support_languages loads requests_get2 = Raise e).
Proof.
  intros H1 H2 Hbody.
  unfold get_support_languages, Response_json.
  rewrite H1, H2; simpl. rewrite Hbody.
  split; [reflexivity|].
  intros e Hraise; rewrite Hraise; reflexivity.
Qed.

(** Status 200 and status 500, the same body. *)
Lemma status_code_not_inspected_200_500 :
  (get_support_languages (decoder [(body x00, en_fr)])
     (serve (mkResponse 200 (body x00)))
   = get_support_languages (decoder [(body x00, en_fr)])
       (serve (mkResponse 500 (body x00)))
   /\ (forall e, decoder [(body x00, en_fr)] (body x00) = Raise e ->
       get_support_languages (decoder [(body x00, en_fr)])
         (serve (mkResponse 500 (body x00))) = Raise e))
  /\ get_support_languages (decoder [(body x00, en_fr)])
       (serve (mkResponse 500 (body x00))) = Ok English_French.
Proof.
  split; [|reflexivity].
  apply (status_code_not_inspected (decoder [(body x00, en_fr)])
           (serve (mkResponse 200 (body x00)))
           (serve (mkResponse 500 (body x00)))
           (mkResponse 200 (body x00)) (mkResponse 500 (body x00)));
    reflexivity.
Defined.

(** * Further properties of the script *)

(** ** The entries of the returned mapping *)

Lemma in_set {A : Type} (d : list (pystr * A)) (k k' : pystr) (v x : A) :
  In (k', x) (Dict.set d k v) -> (k' = k /\ x = v) \/ In (k', x) d.
Proof.
  induction d as [|[k0 v0] d IH]; simpl.
  - intros [H|[]]; inversion H; auto.
  - destruct (str_eqb k0 k) eqn:E; simpl.
    + apply str_eqb_eq in E; subst.
      intros [H|H]; [inversion H; auto | auto].
    + intros [H|H]; [auto | destruct (IH H); auto].
Qed.

Lemma in_keys_set {A : Type} (d : list (pystr * A)) (k k' : pystr) (v : A) :
  In k' (Dict.keys (Dict.set d k v)) <-> k' = k \/ In k' (Dict.keys d).
Proof.
  rewrite keys_set. destruct (Dict.get d k) eqn:E.
  - split; [auto|]. intros [->|H]; [|assumption].
    destruct (in_dec (list_eq_dec N.eq_dec) k (Dict.keys d)) as [H|H];
      [exact H|].
    apply get_none_keys in H; congruence.
  - rewrite in_app_iff; simpl. intuition.
Qed.

(** What a finished loop tells about the entries it went through and
    about the mapping it leaves. *)
Lemma for_items_inv (its : list (pystr * json)) (acc m : dict) :
  for_items its acc = Ok m ->
  (forall k v, In (k, v) its -> has_field v (lit "name") = true)
  /\ (forall k, In k (Dict.keys m)
                <-> In k (Dict.keys acc) \/ In k (Dict.keys its))
  /\ (forall k x, In (k, x) m ->
        In (k, x) acc
        \/ exists dd, In (k, JDict dd) its
                      /\ Dict.get dd (lit "name") = Some x).
Proof.
  revert acc; induction its as [|[k0 v0] its IH]; simpl; intros acc.
  - intros H; inversion H; subst. repeat split; tauto.
  - destruct v0; simpl; try discriminate.
    destruct (Dict.get d (lit "name")) as [n|] eqn:En; simpl;
      [|discriminate].
    intros H. destruct (IH _ H) as (Hall & Hkeys & Hfrom).
    split; [|split].
    + intros k v [Heq|Hin]; [|eauto].
      inversion Heq; subst; simpl. rewrite En; reflexivity.
    + intros k. rewrite Hkeys, in_keys_set. intuition.
    + intros k x Hin. destruct (Hfrom k x Hin) as [Hset|(dd & Hdd & Hx)].
      * destruct (in_set _ _ _ _ _ Hset) as [[-> ->]|Hacc]; [|auto].
        right; exists d; auto.
      * right; exists dd; auto.
Qed.

(** X1: the call returns a mapping only for a body that decodes to an
    object whose `translation` is an object of descriptors that all have
    a `name`; the mapping then has the codes of `translation` and no
    other, and each of its values is the `name` of a descriptor listed
    under that code. *)
Theorem get_support_languages_returns_only_names
    loads requests_get (lang_map : dict) :
  get_support_languages loads requests_get = Ok lang_map ->
  exists r d t,
    requests_get url = Ok r
    /\ loads (content r) = Ok (JDict d)
    /\ Dict.get d (lit "translation") = Some (JDict t)
    /\ (forall code v, In (code, v) t -> has_field v (lit "name") = true)
    /\ (forall code, In code (Dict.keys lang_map) <-> In code (Dict.keys t))
    /\ (forall code x, In (code, x) lang_map ->
          exists dd, In (code, JDict dd) t
                     /\ Dict.get dd (lit "name") = Some x).
Proof.
  unfold get_support_languages, Response_json.
  destruct (requests_get url) as [r|]; simpl; [|discriminate].
  destruct (loads (content r)) as [response|] eqn:El; simpl;
    [|discriminate].
  destruct response; simpl; try discriminate.
  destruct (Dict.get d (lit "translation")) as [t|] eqn:Et; simpl;
    [|discriminate].
  destruct t as [ | | | | | |t]; simpl; try discriminate.
  intros H. destruct (for_items_inv _ _ _ H) as (Hall & Hkeys & Hfrom).
  exists r, d, t. repeat split; try assumption.
  - intros Hin. apply Hkeys in Hin. destruct Hin as [[]|Hin]; exact Hin.
  - intros Hin. apply Hkeys; auto.
  - intros code x Hin. destruct (Hfrom code x Hin) as [[]|Hdd]; exact Hdd.
Qed.

Lemma get_support_languages_returns_only_names_en_fr :
  exists r d t,
    serve (mkResponse 200 (body x00)) url = Ok r
    /\ decoder [(body x00, en_fr)] (content r) = Ok (JDict d)
    /\ Dict.get d (lit "translation") = Some (JDict t)
    /\ (forall code v, In (code, v) t -> has_field v (lit "name") = true)
    /\ (forall code,
          In code (Dict.keys English_French) <-> In code (Dict.keys t))
    /\ (forall code x, In (code, x) English_French ->
          exists dd, In (code, JDict dd) t
                     /\ Dict.get dd (lit "name") = Some x).
Proof.
  apply (get_support_languages_returns_only_names
           (decoder [(body x00, en_fr)])
           (serve (mkResponse 200 (body x00))) English_French).
  reflexivity.
Defined.

(** ** Which exception *)

Lemma for_items_total (its : list (pystr * json)) (acc : dict) :
  (forall k v, In (k, v) its -> has_field v (lit "name") = true) ->
  exists m, for_items its acc = Ok m.
Proof.
  revert acc; induction its as [|[k v] its IH]; simpl; intros acc Hall;
    [eauto|].
  rewrite getitem_name.
  destruct (name_of v) as [n|] eqn:E; simpl; [apply IH; eauto|].
  apply has_field_name in E. rewrite (Hall k v) in E; [discriminate | auto].
Qed.

(** X2: the exception of the loop is the one of the first descriptor
    without a `name`: [KeyError] when that descriptor is an object,
    [TypeError] when it is any other value; the descriptors after it are
    not looked at. *)
Theorem first_missing_name_decides
    loads requests_get r (d before rest : dict) code (v : json) :
  requests_get url = Ok r ->
  Response_json loads r = Ok (JDict d) ->
  Dict.get d (lit "translation")
  = Some (JDict (before ++ (code, v) :: rest)) ->
  (forall k w, In (k, w) before -> has_field w (lit "name") = true) ->
  has_field v (lit "name") = false ->
  get_support_languages loads requests_get
  = Raise (if is_dict v then KeyError (lit "name") else TypeError).
Proof.
  intros Hget Hjson Ht Hbefore Hno.
  rewrite (get_support_languages_loop _ _ _ _ Hget Hjson d _ eq_refl Ht).
  rewrite for_items_app.
  destruct (for_items_total before [] Hbefore) as [m ->]. simpl.
  rewrite getitem_name. apply has_field_name in Hno. rewrite Hno.
  reflexivity.
Qed.

(** `fr` is a string, `de` an object without name: [TypeError]. *)
Lemma first_missing_name_decides_str :
  get_support_languages
    (decoder
       [(body x00,
         document
           (JDict [en; (lit "fr", JStr (lit "French")); (lit "de", JDict [])]))])
    (serve (mkResponse 200 (body x00)))
  = Raise TypeError.
Proof.
  apply (first_missing_name_decides
           (decoder
              [(body x00,
                document
                  (JDict [en; (lit "fr", JStr (lit "French"));
                          (lit "de", JDict [])]))])
           (serve (mkResponse 200 (body x00)))
           (mkResponse 200 (body x00))
           [(lit "translation",
             JDict [en; (lit "fr", JStr (lit "French")); (lit "de", JDict [])])]
           [en] [(lit "de", JDict [])] (lit "fr") (JStr (lit "French"))).
  - reflexivity.
  - reflexivity.
  - reflexivity.
  - intros k w [H|[]]; inversion H; subst; reflexivity.
  - reflexivity.
Defined.

Lemma for_items_exn (its : list (pystr * json)) (acc : dict) (e : exn) :
  for_items its acc = Raise e ->
  e = KeyError (lit "name") \/ e = TypeError.
Proof.
  revert acc; induction its as [|[k v] its IH]; simpl; intros acc;
    [discriminate|].
  rewrite getitem_name. destruct (name_of v) as [n|]; simpl; [apply IH|].
  intros H; inversion H. destruct (is_dict v); auto.
Qed.

(** X3: a run that ends in an exception has printed nothing, and the
    exception is what the request raised, what [Response.json()] let
    through, the [KeyError] of `translation` or of `name`, a [TypeError]
    or an [AttributeError]. *)
Theorem main_failure_prints_nothing
    loads float_repr requests_get (e : exn) :
  uncaught (main loads float_repr requests_get) = Some e ->
  stdout (main loads float_repr requests_get) = EmptyString
  /\ get_support_languages loads requests_get = Raise e
  /\ (requests_get url = Raise e
      \/ (exists r, requests_get url = Ok r /\ loads (content r) = Raise e)
      \/ e = KeyError (lit "translation")
      \/ e = KeyError (lit "name")
      \/ e = TypeError
      \/ e = AttributeError).
Proof.
  unfold main.
  destruct (get_support_languages loads requests_get) as [m|e'] eqn:E;
    simpl; [discriminate|].
  intros H; inversion H; subst e'.
  split; [reflexivity|]. split; [reflexivity|].
  revert E. unfold get_support_languages, Response_json.
  destruct (requests_get url) as [r|]; simpl;
    [|intros H'; inversion H'; auto].
  destruct (loads (content r)) as [response|] eqn:El; simpl;
    [|intros H'; inversion H'; subst; right; left; eauto].
  destruct response; simpl; try (intros H'; inversion H'; tauto).
  destruct (Dict.get d (lit "translation")) as [t|]; simpl;
    [|intros H'; inversion H'; tauto].
  destruct t; simpl; try (intros H'; inversion H'; tauto).
  intros H'. destruct (for_items_exn _ _ _ H'); tauto.
Qed.

(** The body holds an integer beyond the digit limit of the decoder. *)
Lemma main_failure_prints_nothing_digits :
  stdout (main (fun _ => Raise ValueError) float_repr0
            (serve (mkResponse 200 (body x00))))
  = EmptyString
  /\ get_support_languages (fun _ => Raise ValueError)
       (serve (mkResponse 200 (body x00)))
     = Raise ValueError
  /\ (serve (mkResponse 200 (body x00)) url = Raise ValueError
      \/ (exists r,
            serve (mkResponse 200 (body x00)) url = Ok r
            /\ (fun _ : list byte => @Raise json ValueError) (content r)
               = Raise ValueError)
      \/ ValueError = KeyError (lit "translation")
      \/ ValueError = KeyError (lit "name")
      \/ ValueError = TypeError
      \/ ValueError = AttributeError).
Proof.
  apply (main_failure_prints_nothing (fun _ => Raise ValueError) float_repr0
           (serve (mkResponse 200 (body x00))) ValueError).
  reflexivity.
Defined.

(** ** What of the response shows in the output *)

Lemma names_of_none (its : list (pystr * json)) :
  names_of its = None -> exists k v, In (k, v) its /\ name_of v = None.
Proof.
  induction its as [|[k v] its IH]; simpl; [discriminate|].
  destruct (name_of v) as [n|] eqn:E; [|eauto].
  destruct (names_of its) as [m|]; [discriminate|].
  intros _. destruct IH as (k' & v' & Hin & Hv); eauto.
Qed.

(** Listing the descriptors in another order lists their names in that
    other order. *)
Lemma names_of_perm (t1 t2 : list (pystr * json)) (m1 : dict) :
  Permutation t1 t2 -> names_of t1 = Some m1 ->
  exists m2, names_of t2 = Some m2 /\ Permutation m1 m2.
Proof.
  intros Hp; revert m1; induction Hp as [|[k v] t1 t2 Hp IH
                                        |[k v] [k' v'] t|t1 t2 t3 _ IH1 _ IH2];
    simpl; intros m1.
  - intros H; inversion H; eauto.
  - destruct (name_of v) as [n|]; [|discriminate].
    destruct (names_of t1) as [m|]; [|discriminate].
    intros H; inversion H; subst.
    destruct (IH m eq_refl) as (m2 & -> & Hm). eauto.
  - destruct (name_of v') as [n'|]; [|discriminate].
    destruct (name_of v) as [n|]; [|destruct (names_of t); discriminate].
    destruct (names_of t) as [m|]; [|discriminate].
    intros H; inversion H; subst. eexists; split; [reflexivity|].
    apply perm_swap.
  - intros H. destruct (IH1 _ H) as (m2 & H2 & Hp12).
    destruct (IH2 _ H2) as (m3 & H3 & Hp23).
    exists m3; split; [assumption|]. exact (perm_trans Hp12 Hp23).
Qed.

(** X4: the order in which the response lists the entries of
    `translation` does not show on standard output: two responses whose
    entries are the same up to their order make the script print the
    same text (nothing at all, when a descriptor has no name). *)
Theorem entry_order_does_not_show
    loads float_repr requests_get1 requests_get2 r1 r2 (d1 d2 t1 t2 : dict) :
  requests_get1 url = Ok r1 ->
  requests_get2 url = Ok r2 ->
  Response_json loads r1 = Ok (JDict d1) ->
  Response_json loads r2 = Ok (JDict d2) ->
  Dict.get d1 (lit "translation") = Some (JDict t1) ->
  Dict.get d2 (lit "translation") = Some (JDict t2) ->
  NoDup (Dict.keys t1) ->
  Permutation t1 t2 ->
  stdout (main loads float_repr requests_get1)
  = stdout (main loads float_repr requests_get2).
Proof.
  intros Hg1 Hg2 Hj1 Hj2 Ht1 Ht2 Hnd1 Hp.
  unfold main.
  rewrite (get_support_languages_loop _ _ _ _ Hg1 Hj1 d1 t1 eq_refl Ht1).
  rewrite (get_support_languages_loop _ _ _ _ Hg2 Hj2 d2 t2 eq_refl Ht2).
  assert (Hnd2 : NoDup (Dict.keys t2)).
  { unfold Dict.keys in *.
    apply (Permutation_NoDup (Permutation_map fst Hp)); assumption. }
  destruct (names_of t1) as [m1|] eqn:E1.
  - destruct (names_of_perm t1 t2 m1 Hp E1) as (m2 & E2 & Hm).
    rewrite (for_items_ok t1 m1 [] E1 Hnd1), (for_items_ok t2 m2 [] E2 Hnd2).
    simpl. rewrite !json_dumps_dict.
    rewrite (sorted_perm_eq m1 m2); [reflexivity | | assumption].
    rewrite (names_of_keys _ _ E1); assumption.
  - destruct (names_of_none t1 E1) as (k & v & Hin & Hv).
    destruct (for_items_raise t1 [] k v Hin Hv) as (e1 & -> & _).
    destruct (for_items_raise t2 [] k v (Permutation_in _ Hp Hin) Hv)
      as (e2 & -> & _).
    reflexivity.
Qed.

(** `en`, `fr` in one response, `fr`, `en` in the other. *)
Lemma entry_order_does_not_show_en_fr :
  stdout (main (decoder [(body x00, en_fr); (body x01, fr_en)]) float_repr0
            (serve (mkResponse 200 (body x00))))
  = stdout (main (decoder [(body x00, en_fr); (body x01, fr_en)]) float_repr0
              (serve (mkResponse 200 (body x01)))).
Proof.
  apply (entry_order_does_not_show
           (decoder [(body x00, en_fr); (body x01, fr_en)]) float_repr0
           (serve (mkResponse 200 (body x00)))
           (serve (mkResponse 200 (body x01)))
           (mkResponse 200 (body x00)) (mkResponse 200 (body x01))
           [(lit "translation", JDict [en; fr])]
           [(lit "translation", JDict [fr; en])]
           [en; fr] [fr; en]).
  - reflexivity.
  - reflexivity.
  - reflexivity.
  - reflexivity.
  - reflexivity.
  - reflexivity.
  - repeat constructor; cbv; intuition discriminate.
  - apply perm_swap.
Defined.

Lemma for_items_same_name (t1 t2 : list (pystr * json)) (acc : dict) :
  Forall2 same_name t1 t2 -> for_items t1 acc = for_items t2 acc.
Proof.
  intros H; revert acc.
  induction H as [|[k1 v1] [k2 v2] t1 t2 (Hk & Hd & Hn) _ IH]; intros acc;
    [reflexivity|].
  simpl in *. subst k2. rewrite !getitem_name, Hd, Hn.
  destruct (name_of v2); simpl; [apply IH | reflexivity].
Qed.

(** X5: of the decoded body the call reads the `translation` field and
    of each descriptor the `name` field, nothing else: two responses
    whose `translation` entries agree, one by one, on the code, on being
    an object and on the `name`, give the same mapping or the same
    exception, whatever other fields they carry. *)
Theorem only_translation_and_name_are_read
    loads requests_get1 requests_get2 r1 r2 (d1 d2 t1 t2 : dict) :
  requests_get1 url = Ok r1 ->
  requests_get2 url = Ok r2 ->
  Response_json loads r1 = Ok (JDict d1) ->
  Response_json loads r2 = Ok (JDict d2) ->
  Dict.get d1 (lit "translation") = Some (JDict t1) ->
  Dict.get d2 (lit "translation") = Some (JDict t2) ->
  Forall2 same_name t1 t2 ->
  get_support_languages loads requests_get1
  = get_support_languages loads requests_get2.
Proof.
  intros Hg1 Hg2 Hj1 Hj2 Ht1 Ht2 Hsame.
  rewrite (get_support_languages_loop _ _ _ _ Hg1 Hj1 d1 t1 eq_refl Ht1).
  rewrite (get_support_languages_loop _ _ _ _ Hg2 Hj2 d2 t2 eq_refl Ht2).
  apply for_items_same_name; assumption.
Qed.

(** The body of the service, with `dictionary`, `nativeName` and `dir`,
    and the body of the specification. *)
Lemma only_translation_and_name_are_read_full :
  get_support_languages
    (decoder
       [(body x00,
         JDict [(lit "dictionary", JDict []);
                (lit "translation",
                 JDict [(lit "en", full_descriptor "English" "English");
                        (lit "fr", full_descriptor "French" "Francais")])]);
        (body x01, en_fr)])
    (serve (mkResponse 200 (body x00)))
  = get_support_languages
      (decoder
         [(body x00,
           JDict [(lit "dictionary", JDict []);
                  (lit "translation",
                   JDict [(lit "en", full_descriptor "English" "English");
                          (lit "fr", full_descriptor "French" "Francais")])]);
          (body x01, en_fr)])
      (serve (mkResponse 200 (body x01))).
Proof.
  apply (only_translation_and_name_are_read
           (decoder
              [(body x00,
                JDict [(lit "dictionary", JDict []);
                       (lit "translation",
                        JDict [(lit "en", full_descriptor "English" "English");
                               (lit "fr",
                                full_descriptor "French" "Francais")])]);
               (body x01, en_fr)])
           (serve (mkResponse 200 (body x00)))
           (serve (mkResponse 200 (body x01)))
           (mkResponse 200 (body x00)) (mkResponse 200 (body x01))
           [(lit "dictionary", JDict []);
            (lit "translation",
             JDict [(lit "en", full_descriptor "English" "English");
                    (lit "fr", full_descriptor "French" "Francais")])]
           [(lit "translation", JDict [en; fr])]
           [(lit "en", full_descriptor "English" "English");
            (lit "fr", full_descriptor "French" "Francais")]
           [en; fr]).
  - reflexivity.
  - reflexivity.
  - reflexivity.
  - reflexivity.
  - reflexivity.
  - reflexivity.
  - repeat constructor.
Defined.

(** ** The characters the script prints *)

Lemma visible_app (s t : string) :
  visible (s ++ t) = visible s && visible t.
Proof.
  induction s as [|c s IH]; simpl; [reflexivity|].
  rewrite IH, andb_assoc; reflexivity.
Qed.

Lemma plain_app (s t : string) : plain (s ++ t) = plain s && plain t.
Proof.
  induction s as [|c s IH]; simpl; [reflexivity|].
  rewrite IH, andb_assoc; reflexivity.
Qed.

Lemma newlines_app (s t : string) :
  newlines (s ++ t) = newlines s + newlines t.
Proof.
  induction s as [|c s IH]; simpl; [reflexivity|].
  rewrite IH, Nat.add_assoc; reflexivity.
Qed.

Lemma visible_plain (s : string) : visible s = true -> plain s = true.
Proof.
  induction s as [|c s IH]; simpl; [reflexivity|].
  rewrite andb_true_iff. intros [-> Hs]. rewrite IH by assumption.
  reflexivity.
Qed.

Lemma visible_newlines (s : string) : visible s = true -> newlines s = 0.
Proof.
  induction s as [|c s IH]; simpl; [reflexivity|].
  rewrite andb_true_iff. intros [Hc Hs]. rewrite IH by assumption.
  destruct (Ascii.eqb_spec c "010"%char) as [->|]; [discriminate Hc|].
  reflexivity.
Qed.

Lemma visible_concat (sep : string) (l : list string) :
  visible sep = true -> Forall (fun s => visible s = true) l ->
  visible (String.concat sep l) = true.
Proof.
  intros Hsep Hl; induction Hl as [|x l Hx Hl IH]; [reflexivity|].
  destruct l as [|y l]; [exact Hx|].
  change (String.concat sep (x :: y :: l))
    with (x ++ sep ++ String.concat sep (y :: l))%string.
  rewrite !visible_app, Hx, Hsep, IH; reflexivity.
Qed.

Lemma plain_concat (sep : string) (l : list string) :
  plain sep = true -> Forall (fun s => plain s = true) l ->
  plain (String.concat sep l) = true.
Proof.
  intros Hsep Hl; induction Hl as [|x l Hx Hl IH]; [reflexivity|].
  destruct l as [|y l]; [exact Hx|].
  change (String.concat sep (x :: y :: l))
    with (x ++ sep ++ String.concat sep (y :: l))%string.
  rewrite !plain_app, Hx, Hsep, IH; reflexivity.
Qed.

Lemma newlines_concat (sep : string) (l : list string) :
  Forall (fun s => newlines s = 0) l ->
  newlines (String.concat sep l) = newlines sep * (List.length l - 1).
Proof.
  intros Hl; induction Hl as [|x l Hx Hl IH]; [simpl; lia|].
  destruct l as [|y l]; [simpl; lia|].
  change (String.concat sep (x :: y :: l))
    with (x ++ sep ++ String.concat sep (y :: l))%string.
  rewrite !newlines_app, Hx, IH. simpl List.length. lia.
Qed.

Lemma hex_digit_printable (n : N) :
  (n < 16)%N -> printable (hex_digit n) = true.
Proof.
  intros H.
  assert (Hn : In n [0; 1; 2; 3; 4; 5; 6; 7; 8; 9; 10; 11; 12; 13; 14; 15]%N).
  { simpl. lia. }
  simpl in Hn.
  repeat (destruct Hn as [<-|Hn]; [reflexivity|]). destruct Hn.
Qed.

Lemma hex4_visible (n : N) : visible (hex4 n) = true.
Proof.
  unfold hex4; simpl.
  rewrite !hex_digit_printable; [reflexivity | | | |];
    apply N.mod_upper_bound; discriminate.
Qed.

Lemma uescape_visible (n : N) : visible (uescape n) = true.
Proof.
  unfold uescape. rewrite visible_app, hex4_visible. reflexivity.
Qed.

(** Whatever the code point, its replacement is made of characters
    between the space and the tilde. *)
Lemma escape_char_visible (c : codepoint) : visible (escape_char c) = true.
Proof.
  unfold escape_char.
  destruct (N.eqb c 92); [reflexivity|].
  destruct (N.eqb c 34); [reflexivity|].
  destruct (N.leb 32 c && N.leb c 126) eqn:E.
  - apply andb_true_iff in E. destruct E as [Hlo Hhi].
    apply N.leb_le in Hlo, Hhi.
    simpl. unfold printable.
    rewrite N_ascii_embedding by lia.
    apply andb_true_iff; split; [|reflexivity].
    apply andb_true_iff; split; apply N.leb_le; assumption.
  - repeat (match goal with
            | |- context [if ?b then _ else _] => destruct b
            end; try reflexivity; try apply uescape_visible).
    rewrite visible_app, !uescape_visible; reflexivity.
Qed.

Lemma encode_basestring_ascii_visible (s : pystr) :
  visible (encode_basestring_ascii s) = true.
Proof.
  unfold encode_basestring_ascii.
  rewrite !visible_app, visible_concat; [reflexivity | reflexivity |].
  apply Forall_forall. intros x Hx. apply in_map_iff in Hx.
  destruct Hx as (c & <- & _). apply escape_char_visible.
Qed.

Lemma spaces_visible (n : nat) : visible (spaces n) = true.
Proof. induction n as [|n IH]; simpl; [reflexivity | exact IH]. Qed.

Lemma string_of_uint_visible (d : Decimal.uint) :
  visible (NilEmpty.string_of_uint d) = true.
Proof. induction d; simpl; auto. Qed.

Lemma intstr_visible (n : Z) : visible (intstr n) = true.
Proof.
  unfold intstr, NilZero.string_of_int, NilZero.string_of_uint.
  destruct (Z.to_int n) as [d|d]; destruct d; simpl;
    try reflexivity; apply string_of_uint_visible.
Qed.

(** Induction on a decoded document, through its arrays and objects. *)
Lemma json_nested_ind (P : json -> Prop) :
  P JNull ->
  (forall b, P (JBool b)) ->
  (forall n, P (JInt n)) ->
  (forall f, P (JFloat f)) ->
  (forall s, P (JStr s)) ->
  (forall l, Forall P l -> P (JList l)) ->
  (forall d, Forall (fun kv => P (snd kv)) d -> P (JDict d)) ->
  forall o, P o.
Proof.
  intros Hnull Hbool Hint Hfloat Hstr Hlist Hdict.
  fix IH 1. intros [ |b|n|f|s|l|d].
  - exact Hnull.
  - apply Hbool.
  - apply Hint.
  - apply Hfloat.
  - apply Hstr.
  - apply Hlist. revert l. fix IHl 1. intros [|x l].
    + constructor.
    + constructor; [apply IH | apply IHl].
  - apply Hdict. revert d. fix IHd 1. intros [|[k v] d].
    + constructor.
    + constructor; [apply IH | apply IHd].
Qed.

Lemma newline_indent_plain (level : nat) :
  plain (newline_indent level) = true.
Proof.
  unfold newline_indent. rewrite plain_app.
  rewrite (visible_plain _ (spaces_visible _)). reflexivity.
Qed.

Lemma item_separator_plain (level : nat) :
  plain (item_separator level) = true.
Proof.
  unfold item_separator. rewrite plain_app, newline_indent_plain.
  reflexivity.
Qed.

Lemma member_plain (kv : pystr * string) :
  plain (snd kv) = true -> plain (member kv) = true.
Proof.
  intros H. unfold member, key_separator.
  rewrite !plain_app, H.
  rewrite (visible_plain _ (encode_basestring_ascii_visible _)).
  reflexivity.
Qed.

Section Plain.

Variable float_repr : float -> string.
Hypothesis float_repr_plain : forall f, plain (float_repr f) = true.

Lemma floatstr_plain (f : float) : plain (floatstr float_repr f) = true.
Proof.
  unfold floatstr.
  destruct (negb (PrimFloat.eqb f f)); [reflexivity|].
  destruct (PrimFloat.eqb f infinity); [reflexivity|].
  destruct (PrimFloat.eqb f neg_infinity); [reflexivity|].
  apply float_repr_plain.
Qed.

(** The encoder writes printable ASCII and newlines only. *)
Lemma iterencode_plain (o : json) :
  forall level, plain (iterencode float_repr level o) = true.
Proof.
  induction o as [ |b|n|f|s|l IHl|d IHd] using json_nested_ind;
    intros level.
  - reflexivity.
  - destruct b; reflexivity.
  - apply visible_plain, intstr_visible.
  - apply floatstr_plain.
  - apply visible_plain, encode_basestring_ascii_visible.
  - destruct l as [|x l]; [reflexivity|].
    change (iterencode float_repr level (JList (x :: l)))
      with ("[" ++ newline_indent (S level)
            ++ String.concat (item_separator (S level))
                 (List.map (iterencode float_repr (S level)) (x :: l))
            ++ newline_indent level ++ "]")%string.
    rewrite !plain_app, !newline_indent_plain.
    rewrite plain_concat; [reflexivity | apply item_separator_plain |].
    apply Forall_forall. intros t Ht. apply in_map_iff in Ht.
    destruct Ht as (y & <- & Hy).
    rewrite Forall_forall in IHl. apply IHl; assumption.
  - destruct d as [|x d]; [reflexivity|].
    change (iterencode float_repr level (JDict (x :: d)))
      with ("{" ++ newline_indent (S level)
            ++ String.concat (item_separator (S level))
                 (List.map member
                    (sorted
                       (List.map
                          (fun kv =>
                             (fst kv, iterencode float_repr (S level) (snd kv)))
                          (x :: d))))
            ++ newline_indent level ++ "}")%string.
    rewrite !plain_app, !newline_indent_plain.
    rewrite plain_concat; [reflexivity | apply item_separator_plain |].
    apply Forall_forall. intros t Ht. apply in_map_iff in Ht.
    destruct Ht as (y & <- & Hy). apply member_plain.
    apply (Permutation_in _ (sorted_perm _)) in Hy.
    apply in_map_iff in Hy. destruct Hy as (kv & <- & Hkv). simpl.
    rewrite Forall_forall in IHd. apply (IHd kv Hkv).
Qed.

End Plain.

(** X6: whatever code points the codes and names hold, standard output is
    made of printable ASCII characters and newlines: the encoder escapes
    every other character.  The [repr] of a [float] is assumed to be such
    a text. *)
Theorem main_prints_plain_ascii loads float_repr requests_get :
  (forall f, plain (float_repr f) = true) ->
  plain (stdout (main loads float_repr requests_get)) = true.
Proof.
  intros Hrepr. unfold main.
  destruct (get_support_languages loads requests_get) as [lang_map|e];
    [|reflexivity].
  simpl. unfold print, json_dumps.
  rewrite plain_app, (iterencode_plain float_repr Hrepr). reflexivity.
Qed.

(** A name with an accent, a line break and a character beyond the
    basic plane. *)
Lemma main_prints_plain_ascii_escapes :
  plain
    (stdout
       (main
          (decoder
             [(body x00,
               document
                 (JDict
                    [(lit "fr",
                      descriptor
                        (JStr [70; 114; 97; 110; 231; 97; 105; 115; 10;
                               128512]%N))]))])
          float_repr0 (serve (mkResponse 200 (body x00)))))
  = true.
Proof.
  apply (main_prints_plain_ascii
           (decoder
              [(body x00,
                document
                  (JDict
                     [(lit "fr",
                       descriptor
                         (JStr [70; 114; 97; 110; 231; 97; 105; 115; 10;
                                128512]%N))]))])
           float_repr0 (serve (mkResponse 200 (body x00)))).
  reflexivity.
Defined.

(** X7: when every name is a string, the script prints one line per
    language between the line of the opening brace and the line of the
    closing brace, even if a code or a name holds line breaks; with no
    language it prints the single line of the two braces. *)
Theorem one_line_per_language
    loads float_repr requests_get (lang_map : dict) :
  get_support_languages loads requests_get = Ok lang_map ->
  (forall code x, In (code, x) lang_map -> is_str x = true) ->
  newlines (stdout (main loads float_repr requests_get))
  = match lang_map with
    | [] => 1
    | _ => List.length lang_map + 2
    end.
Proof.
  intros Hmap Hstr. unfold main. rewrite Hmap. simpl stdout.
  unfold print. rewrite newlines_app, json_dumps_dict.
  pose proof (sorted_perm lang_map) as Hp.
  rewrite <- (Permutation_length Hp).
  destruct (sorted lang_map) as [|y its] eqn:E.
  - apply Permutation_nil in Hp. subst lang_map. reflexivity.
  - destruct lang_map as [|z lang_map];
      [apply Permutation_sym, Permutation_nil in Hp; discriminate|].
    unfold spec_text.
    rewrite !newlines_app, newlines_concat.
    + rewrite length_map. simpl. lia.
    + apply Forall_forall. intros t Ht. apply in_map_iff in Ht.
      destruct Ht as ([k x] & <- & Hkx).
      apply (Permutation_in _ Hp) in Hkx.
      pose proof (Hstr k x Hkx) as Hx.
      destruct x; try discriminate Hx.
      apply visible_newlines. unfold spec_line. simpl fst; simpl snd.
      rewrite !visible_app, spaces_visible.
      change (iterencode float_repr 1 (JStr s))
        with (encode_basestring_ascii s).
      rewrite !encode_basestring_ascii_visible. reflexivity.
Qed.

(** Two languages, four lines. *)
Lemma one_line_per_language_en_fr :
  newlines
    (stdout (main (decoder [(body x00, en_fr)]) float_repr0
               (serve (mkResponse 200 (body x00)))))
  = 4.
Proof.
  apply (one_line_per_language (decoder [(body x00, en_fr)]) float_repr0
           (serve (mkResponse 200 (body x00))) English_French).
  - reflexivity.
  - intros code x [H|[H|[]]]; inversion H; reflexivity.
Defined.

(** ** Two runs on the same body *)

Lemma distinct_NoDup (l : list pystr) : distinct l = true -> NoDup l.
Proof.
  induction l as [|k l IH]; simpl; intros H; [constructor|].
  apply andb_true_iff in H. destruct H as [Hk Hl].
  constructor; [|auto].
  intros Hin. apply negb_true_iff in Hk.
  assert (Hex : existsb (str_eqb k) l = true).
  { apply existsb_exists. exists k; split; [assumption|].
    apply str_eqb_refl. }
  congruence.
Qed.

Lemma well_formed_dict (d : dict) :
  well_formed (JDict d) = true ->
  NoDup (Dict.keys d) /\ forall k v, In (k, v) d -> well_formed v = true.
Proof.
  simpl. intros H. apply andb_true_iff in H. destruct H as [Hd Hall].
  split; [apply distinct_NoDup; exact Hd|].
  intros k v Hin. rewrite forallb_forall in Hall. exact (Hall _ Hin).
Qed.

Lemma get_some_in {A : Type} (d : list (pystr * A)) (k : pystr) (v : A) :
  Dict.get d k = Some v -> In (k, v) d.
Proof.
  induction d as [|[k' v'] d IH]; simpl; [discriminate|].
  destruct (str_eqb k' k) eqn:E.
  - apply str_eqb_eq in E; subst. intros H; inversion H; auto.
  - auto.
Qed.

(** Looking a key up does not depend on where its entry stands. *)
Lemma get_perm {A : Type} (d d1 : list (pystr * A)) (k : pystr) :
  NoDup (Dict.keys d) -> Permutation d d1 -> Dict.get d1 k = Dict.get d k.
Proof.
  intros Hnd Hp.
  assert (Hnd1 : NoDup (Dict.keys d1)).
  { unfold Dict.keys in *.
    apply (Permutation_NoDup (Permutation_map fst Hp)); assumption. }
  destruct (Dict.get d k) as [v|] eqn:E.
  - apply get_in; [assumption|].
    apply (Permutation_in _ Hp), get_some_in; assumption.
  - apply get_none_keys. apply get_none_keys in E.
    intros Hin; apply E. unfold Dict.keys in *.
    apply (Permutation_in _ (Permutation_sym (Permutation_map fst Hp)));
      assumption.
Qed.

(** Entries that agree on the key, one by one, give related values at
    every key. *)
Lemma get_Forall2 {A : Type} (R : A -> A -> Prop)
    (d d' : list (pystr * A)) (k : pystr) :
  Forall2 (fun a b => fst a = fst b /\ R (snd a) (snd b)) d d' ->
  match Dict.get d k, Dict.get d' k with
  | Some v, Some v' => R v v'
  | None, None => True
  | _, _ => False
  end.
Proof.
  induction 1 as [|[k1 v1] [k2 v2] d d' [Hk Hv] _ IH]; simpl; [exact I|].
  simpl in Hk, Hv. subst k2.
  destruct (str_eqb k1 k); [exact Hv | exact IH].
Qed.

(** Induction on [reordered], through the arrays and objects. *)
Lemma reordered_nested_ind (P : json -> json -> Prop) :
  P JNull JNull ->
  (forall b, P (JBool b) (JBool b)) ->
  (forall n, P (JInt n) (JInt n)) ->
  (forall f, P (JFloat f) (JFloat f)) ->
  (forall s, P (JStr s) (JStr s)) ->
  (forall l l',
     Forall2 (fun a b => reordered a b /\ P a b) l l' ->
     P (JList l) (JList l')) ->
  (forall d d1 d',
     Permutation d d1 ->
     Forall2 (fun a b => fst a = fst b
                         /\ reordered (snd a) (snd b)
                         /\ P (snd a) (snd b)) d1 d' ->
     P (JDict d) (JDict d')) ->
  forall o o', reordered o o' -> P o o'.
Proof.
  intros Hnull Hbool Hint Hfloat Hstr Hlist Hdict.
  fix IH 3. intros o o' H.
  destruct H as [ |b|n|f|s|l l' Hl|d d1 d' Hp Hd].
  - exact Hnull.
  - apply Hbool.
  - apply Hint.
  - apply Hfloat.
  - apply Hstr.
  - apply Hlist. revert l l' Hl. fix IHl 3. intros l l' Hl.
    destruct Hl as [|a b l l' Hab Hl]; constructor.
    + split; [exact Hab | apply IH; exact Hab].
    + apply IHl; exact Hl.
  - apply (Hdict d d1 d' Hp). clear Hp. revert d1 d' Hd.
    fix IHd 3. intros d1 d' Hd.
    destruct Hd as [|a b d1 d' Hab Hd]; constructor.
    + destruct Hab as [Hk Hr].
      split; [exact Hk|]. split; [exact Hr | apply IH; exact Hr].
    + apply IHd; exact Hd.
Qed.

Lemma iterencode_list float_repr (level : nat) (l : list json) :
  iterencode float_repr level (JList l)
  = list_text level (List.map (iterencode float_repr (S level)) l).
Proof. destruct l; reflexivity. Qed.

Lemma iterencode_dict float_repr (level : nat) (d : dict) :
  iterencode float_repr level (JDict d)
  = dict_text level
      (List.map (fun kv => (fst kv, iterencode float_repr (S level) (snd kv)))
         d).
Proof. destruct d; reflexivity. Qed.

Lemma dict_text_perm (level : nat) (ms ms' : list (pystr * string)) :
  NoDup (Dict.keys ms) -> Permutation ms ms' ->
  dict_text level ms = dict_text level ms'.
Proof.
  intros Hnd Hp. unfold dict_text.
  rewrite (sorted_perm_eq ms ms' Hnd Hp).
  destruct ms as [|m ms]; destruct ms' as [|m' ms']; try reflexivity.
  - apply Permutation_nil in Hp; discriminate.
  - apply Permutation_sym, Permutation_nil in Hp; discriminate.
Qed.

Lemma keys_map {A B : Type} (f : A -> B) (d : list (pystr * A)) :
  Dict.keys (List.map (fun kv => (fst kv, f (snd kv))) d) = Dict.keys d.
Proof.
  unfold Dict.keys. rewrite map_map. reflexivity.
Qed.

(** The encoder does not show the order of the entries of any object of
    the value it writes. *)
Lemma iterencode_reordered float_repr (o o' : json) :
  reordered o o' ->
  well_formed o = true ->
  forall level,
    iterencode float_repr level o = iterencode float_repr level o'.
Proof.
  intros H.
  induction H as [ |b|n|f|s|l l' Hl|d d1 d' Hp Hd]
    using reordered_nested_ind; intros Hwf level; try reflexivity.
  - rewrite !iterencode_list. f_equal.
    simpl in Hwf. rewrite forallb_forall in Hwf.
    induction Hl as [|a b l l' [_ Hab] _ IHl]; [reflexivity|].
    simpl. rewrite Hab by (apply Hwf; left; reflexivity).
    rewrite IHl; [reflexivity|]. intros x Hx. apply Hwf; right; exact Hx.
  - rewrite !iterencode_dict.
    destruct (well_formed_dict d Hwf) as [Hnd Hall].
    rewrite (dict_text_perm level _
               (List.map
                  (fun kv =>
                     (fst kv, iterencode float_repr (S level) (snd kv))) d1)).
    + f_equal.
      assert (Hall1 : forall k v, In (k, v) d1 -> well_formed v = true).
      { intros k v Hin. apply (Hall k v).
        apply (Permutation_in _ (Permutation_sym Hp)); assumption. }
      clear Hp Hnd Hall Hwf.
      induction Hd as [|[k v] [k' v'] d1 d' (Hk & _ & Hv) _ IHd];
        [reflexivity|].
      simpl in *. subst k'.
      rewrite (Hv (Hall1 k v (or_introl eq_refl))).
      rewrite IHd; [reflexivity|]. intros k0 v0 Hin. eapply Hall1; eauto.
    + rewrite keys_map; assumption.
    + apply Permutation_map; assumption.
Qed.

Lemma NoDup_distinct (l : list pystr) : NoDup l -> distinct l = true.
Proof.
  induction 1 as [|k l Hk _ IH]; simpl; [reflexivity|].
  rewrite IH, andb_true_r. apply negb_true_iff.
  destruct (existsb (str_eqb k) l) eqn:E; [|reflexivity].
  apply existsb_exists in E. destruct E as (x & Hx & Hkx).
  apply str_eqb_eq in Hkx. subst x. contradiction.
Qed.

Lemma main_printed loads float_repr requests_get r (response : json) :
  requests_get url = Ok r ->
  loads (content r) = Ok response ->
  stdout (main loads float_repr requests_get) = printed float_repr response.
Proof.
  intros Hget Hjson. unfold main, printed.
  rewrite (get_support_languages_decoded loads _ r response Hget Hjson).
  destruct (translation <- getitem response (lit "translation") ;;
            its <- items translation ;; for_items its []);
    reflexivity.
Qed.

Lemma is_dict_reordered (v v' : json) :
  reordered v v' -> is_dict v = is_dict v'.
Proof. intros H; destruct H; reflexivity. Qed.

Lemma field_reordered (v v' : json) (k : pystr) :
  reordered v v' -> well_formed v = true ->
  match getitem v k, getitem v' k with
  | Ok n, Ok n' => reordered n n' /\ well_formed n = true
  | Raise e, Raise e' => e = e'
  | _, _ => False
  end.
Proof.
  intros H Hwf. destruct H as [ |b|n|f|s|l l' Hl|d d1 d' Hp Hd];
    try reflexivity.
  destruct (well_formed_dict d Hwf) as [Hnd Hall].
  simpl. rewrite <- (get_perm d d1 k Hnd Hp).
  pose proof (get_Forall2 reordered d1 d' k Hd) as Hget.
  destruct (Dict.get d1 k) as [n|] eqn:E1;
    destruct (Dict.get d' k) as [n'|]; try contradiction; [|reflexivity].
  split; [exact Hget|].
  apply (Hall k n), (Permutation_in _ (Permutation_sym Hp)), get_some_in.
  exact E1.
Qed.

Lemma name_of_getitem (v : json) :
  name_of v = match getitem v (lit "name") with
              | Ok n => Some n
              | Raise _ => None
              end.
Proof. rewrite getitem_name. destruct (name_of v); reflexivity. Qed.

(** Descriptors that are the same up to the order of their fields give
    names that are the same up to that order. *)
Lemma names_of_reordered (e1 e' : list (pystr * json)) :
  Forall2 (fun a b => fst a = fst b /\ reordered (snd a) (snd b)) e1 e' ->
  (forall k v, In (k, v) e1 -> well_formed v = true) ->
  match names_of e1, names_of e' with
  | Some m1, Some m' =>
      Forall2 (fun a b => fst a = fst b /\ reordered (snd a) (snd b)) m1 m'
      /\ (forall k n, In (k, n) m1 -> well_formed n = true)
  | None, None => True
  | _, _ => False
  end.
Proof.
  induction 1 as [|[k v] [k' v'] e1 e' [Hk Hv] _ IH]; intros Hwf; simpl.
  - split; [constructor | intros k n []].
  - simpl in Hk, Hv. subst k'.
    pose proof (field_reordered v v' (lit "name") Hv
                  (Hwf k v (or_introl eq_refl))) as Hname.
    rewrite (name_of_getitem v), (name_of_getitem v').
    destruct (getitem v (lit "name")) as [n|];
      destruct (getitem v' (lit "name")) as [n'|]; try contradiction.
    + destruct Hname as [Hn Hnwf].
      assert (IH' := IH (fun k0 v0 Hin => Hwf k0 v0 (or_intror Hin))).
      destruct (names_of e1) as [m1|]; destruct (names_of e') as [m'|];
        try contradiction; [|exact I].
      destruct IH' as [Hm Hmwf]. split.
      * constructor; [split; [reflexivity | exact Hn] | exact Hm].
      * intros k0 n0 [Heq|Hin]; [inversion Heq; subst; exact Hnwf|].
        exact (Hmwf k0 n0 Hin).
    + exact I.
Qed.

Lemma keys_Forall2 {A : Type} (R : A -> A -> Prop)
    (d d' : list (pystr * A)) :
  Forall2 (fun a b => fst a = fst b /\ R (snd a) (snd b)) d d' ->
  Dict.keys d' = Dict.keys d.
Proof.
  induction 1 as [|a b d d' [Hk _] _ IH]; simpl; [reflexivity|].
  rewrite IH, Hk; reflexivity.
Qed.

Lemma for_items_names_of_none (its : list (pystr * json)) :
  names_of its = None -> exists e, for_items its [] = Raise e.
Proof.
  intros H. destruct (names_of_none its H) as (k & v & Hin & Hv).
  destruct (for_items_raise its [] k v Hin Hv) as (e & He & _). eauto.
Qed.

(** What is printed does not show the order in which the objects of the
    decoded body list their entries. *)
Lemma printed_reordered float_repr (response response' : json) :
  reordered response response' ->
  well_formed response = true ->
  printed float_repr response' = printed float_repr response.
Proof.
  intros H Hwf. unfold printed.
  pose proof (field_reordered _ _ (lit "translation") H Hwf) as Ht.
  destruct (getitem response (lit "translation")) as [t|];
    destruct (getitem response' (lit "translation")) as [t'|];
    try contradiction; [|reflexivity].
  destruct Ht as [Ht Htwf]. simpl.
  destruct Ht as [ |b|n|f|s|l l' Hl|e e1 e' Hp He]; try reflexivity.
  simpl. destruct (well_formed_dict e Htwf) as [Hnd Hall].
  assert (Hall1 : forall k v, In (k, v) e1 -> well_formed v = true).
  { intros k v Hin. apply (Hall k v).
    apply (Permutation_in _ (Permutation_sym Hp)); assumption. }
  assert (Hnd1 : NoDup (Dict.keys e1)).
  { unfold Dict.keys in *.
    apply (Permutation_NoDup (Permutation_map fst Hp)); assumption. }
  pose proof (names_of_reordered e1 e' He Hall1) as Hnames.
  destruct (names_of e) as [m|] eqn:Em.
  - destruct (names_of_perm e e1 m Hp Em) as (m1 & Em1 & Hpm).
    rewrite Em1 in Hnames.
    destruct (names_of e') as [m'|] eqn:Em'; [|contradiction].
    destruct Hnames as [Hm Hmwf].
    rewrite (for_items_ok e m [] Em) by assumption.
    rewrite (for_items_ok e' m' [] Em')
      by (simpl; rewrite (keys_Forall2 _ _ _ He); assumption).
    simpl. unfold json_dumps. f_equal. symmetry.
    apply iterencode_reordered.
    + exact (reordered_dict m m1 m' Hpm Hm).
    + simpl. apply andb_true_iff; split.
      * apply NoDup_distinct.
        change (List.map fst m) with (Dict.keys m).
        rewrite (names_of_keys _ _ Em); assumption.
      * apply forallb_forall. intros [k n] Hin. simpl.
        apply (Hmwf k n), (Permutation_in _ Hpm); assumption.
  - destruct (for_items_names_of_none e Em) as (x & ->).
    destruct (names_of e1) as [m1|] eqn:Em1.
    + destruct (names_of_perm e1 e m1 (Permutation_sym Hp) Em1)
        as (m & Em' & _). congruence.
    + destruct (names_of e') as [m'|] eqn:Em'; [contradiction|].
      destruct (for_items_names_of_none e' Em') as (x' & ->). reflexivity.
Qed.

(** C6: two runs that receive the same body print the same text and end
    the same way, whatever the status codes; and the text is the same
    again when the second run's decoder hands the objects of the document
    over with their entries in another order, as the key order of the
    output does not depend on it. *)
Theorem main_deterministic_in_body
    loads float_repr requests_get1 requests_get2 r1 r2 :
  requests_get1 url = Ok r1 ->
  requests_get2 url = Ok r2 ->
  content r1 = content r2 ->
  stdout (main loads float_repr requests_get1)
  = stdout (main loads float_repr requests_get2)
  /\ uncaught (main loads float_repr requests_get1)
     = uncaught (main loads float_repr requests_get2)
  /\ forall loads' response response',
       loads (content r1) = Ok response ->
       loads' (content r2) = Ok response' ->
       well_formed response = true ->
       reordered response response' ->
       stdout (main loads' float_repr requests_get2)
       = stdout (main loads float_repr requests_get1).
Proof.
  intros H1 H2 Hbody. split; [|split].
  - unfold main, get_support_languages, Response_json.
    rewrite H1, H2; simpl. rewrite Hbody. reflexivity.
  - unfold main, get_support_languages, Response_json.
    rewrite H1, H2; simpl. rewrite Hbody. reflexivity.
  - intros loads' response response' Hl Hl' Hwf Hre.
    rewrite (main_printed loads' _ _ r2 response' H2 Hl').
    rewrite (main_printed loads _ _ r1 response H1 Hl).
    apply printed_reordered; assumption.
Qed.

(** Status 200 and a decoder that lists `en` first, status 503 and a
    decoder that lists `fr` first: the same text. *)
Lemma main_deterministic_in_body_en_fr :
  stdout (main (decoder [(body x00, fr_en)]) float_repr0
            (serve (mkResponse 503 (body x00))))
  = stdout (main (decoder [(body x00, en_fr)]) float_repr0
              (serve (mkResponse 200 (body x00))))
  /\ stdout (main (decoder [(body x00, en_fr)]) float_repr0
               (serve (mkResponse 200 (body x00))))
     = English_French_text.
Proof.
  split; [|reflexivity].
  destruct (main_deterministic_in_body (decoder [(body x00, en_fr)])
              float_repr0
              (serve (mkResponse 200 (body x00)))
              (serve (mkResponse 503 (body x00)))
              (mkResponse 200 (body x00)) (mkResponse 503 (body x00))
              eq_refl eq_refl eq_refl)
    as (_ & _ & Horder).
  apply (Horder (decoder [(body x00, fr_en)]) en_fr fr_en).
  - reflexivity.
  - reflexivity.
  - reflexivity.
  - apply (reordered_dict _ [(lit "translation", JDict [en; fr])]);
      [apply Permutation_refl|].
    constructor; [|constructor]. split; [reflexivity|].
    apply (reordered_dict _ [fr; en]); [apply perm_swap|].
    assert (Hd : forall s, reordered (descriptor (JStr s))
                             (descriptor (JStr s))).
    { intros s. apply (reordered_dict _ [(lit "name", JStr s)]);
        [apply Permutation_refl|].
      constructor; [|constructor]. split; [reflexivity|]. constructor. }
    constructor; [split; [reflexivity | apply Hd]|].
    constructor; [split; [reflexivity | apply Hd]|]. constructor.
Defined.

(** ** Reading strings back *)













(** ** Reading numbers back *)







Section ReadNumber.

Variable float_of_text : string -> option float.




End ReadNumber.

(** ** Reading arrays and objects back *)









(** ** Reading a value back *)


Section RoundTrip.

Variable float_repr : float -> string.
Variable float_of_text : string -> option float.







End RoundTrip.

(** ** The value the reader finds *)





(** ** What the script prints, read back *)


